(** * Black-Scholes option calculator: pricing, Greeks and implied volatility

    A shallow embedding of [black_scholes_model.ipynb].

    - Python floats are read as real numbers ([R]): rounding and overflow
      are not modelled.
    - The exceptions Python's arithmetic raises ([ZeroDivisionError] for
      [x / 0.0], [ValueError] for [math.log] and [math.sqrt] outside their
      domain) are kept, in an error monad.
    - [scipy.stats.norm] is the standard normal distribution: [norm.pdf] is
      its density and [norm.cdf] the integral of the density.
    - The notebook's module-level variables are a record that
      [implied_volatility] receives; its [while] loop runs on fuel.
      [implied_volatility_in] is the same body with every variable read
      by name, in a frame and a module namespace. *)

From Stdlib Require Import Reals Lra Lia ZArith List String.
From Stdlib Require Import Ranalysis RiemannInt.
Import ListNotations.

Local Open Scope R_scope.

(** ** scipy.stats.norm *)

Module norm.

(** [norm.pdf]: the density of the standard normal distribution. *)
Definition pdf (x : R) : R := exp (- (x * x) / 2) / sqrt (2 * PI).

(** The density is continuous, hence Riemann integrable between any two
    bounds, whatever their order. *)
Definition pdf_integrable (a b : R) : Riemann_integrable pdf a b.
Proof.
  assert (Hc : continuity pdf).
  { apply derivable_continuous. unfold pdf.
    assert (H : sqrt (2 * PI) <> 0).
    { apply Rgt_not_eq, sqrt_lt_R0. generalize PI_RGT_0. lra. }
    reg. }
  destruct (Rle_dec a b) as [Hab | Hba].
  - exact (continuity_implies_RiemannInt Hab (fun x _ => Hc x)).
  - apply RiemannInt_P1.
    exact (continuity_implies_RiemannInt
             (Rlt_le _ _ (Rnot_le_lt _ _ Hba)) (fun x _ => Hc x)).
Defined.

(** [norm.cdf]: the cumulative distribution function,
    [1/2 + integral of pdf from 0 to x]. *)
Definition cdf (x : R) : R := 1 / 2 + RiemannInt (pdf_integrable 0 x).

End norm.

(** ** Python arithmetic that can raise *)

Inductive PyExc : Type :=
| ZeroDivisionError
| ValueError.

Inductive py (A : Type) : Type :=
| Ok (a : A)
| Raise (e : PyExc).

Arguments Ok {A} a.
Arguments Raise {A} e.

Definition bind {A B : Type} (m : py A) (k : A -> py B) : py B :=
  match m with
  | Ok a => k a
  | Raise e => Raise e
  end.

Notation "x <- m ;; k" := (bind m (fun x => k))
  (at level 61, m at next level, right associativity).

(** Float division [x / y]. *)
Definition py_div (x y : R) : py R :=
  if Req_dec_T y 0 then Raise ZeroDivisionError else Ok (x / y).

Infix "//" := py_div (at level 40, left associativity).

Module math.

(** [math.log]: a [ValueError] outside the positive reals. *)
Definition log (x : R) : py R :=
  if Rlt_dec 0 x then Ok (ln x) else Raise ValueError.

(** [math.sqrt]: a [ValueError] on a negative argument. *)
Definition sqrt (x : R) : py R :=
  if Rle_dec 0 x then Ok (R_sqrt.sqrt x) else Raise ValueError.

End math.

(** ** The pricing functions of the notebook *)

(** [d1] and [d2] declare their parameters in the order [S, T, K, r, sigma]. *)
Definition d1 (S T K r sigma : R) : py R :=
  q <- S // K ;;
  l <- math.log q ;;
  s <- math.sqrt T ;;
  (l + (r + sigma ^ 2 / 2) * T) // (sigma * s).

Definition d2 (S T K r sigma : R) : py R :=
  q <- S // K ;;
  l <- math.log q ;;
  s <- math.sqrt T ;;
  (l + (r - sigma ^ 2 / 2) * T) // (sigma * s).

(** Every caller passes [S, K, T, r, sigma] positionally, so inside [d1]
    and [d2] the strike is bound to [T] and the maturity to [K]. *)
Definition call_price (S K T r sigma : R) : py R :=
  a <- d1 S K T r sigma ;;
  b <- d2 S K T r sigma ;;
  Ok (S * norm.cdf a - K * exp (- r * T) * norm.cdf b).

Definition put_price (S K T r sigma : R) : py R :=
  b <- d2 S K T r sigma ;;
  a <- d1 S K T r sigma ;;
  Ok (K * exp (- r * T) * norm.cdf (- b) - S * norm.cdf (- a)).

Definition call_delta (S K T r sigma : R) : py R :=
  a <- d1 S K T r sigma ;;
  Ok (norm.cdf a).

Definition call_gamma (S K T r sigma : R) : py R :=
  a <- d1 S K T r sigma ;;
  s <- math.sqrt T ;;
  norm.pdf a // (S * sigma * s).

Definition call_vega (S K T r sigma : R) : py R :=
  a <- d1 S K T r sigma ;;
  s <- math.sqrt T ;;
  Ok (0.01 * (S * norm.pdf a * s)).

Definition call_theta (S K T r sigma : R) : py R :=
  a <- d1 S K T r sigma ;;
  s <- math.sqrt T ;;
  t <- (- (S * norm.pdf a * sigma)) // (2 * s) ;;
  b <- d2 S K T r sigma ;;
  Ok (0.01 * (t - r * K * exp (- r * T) * norm.cdf b)).

Definition call_rho (S K T r sigma : R) : py R :=
  b <- d2 S K T r sigma ;;
  Ok (0.01 * (K * T * exp (- r * T) * norm.cdf b)).

Definition put_delta (S K T r sigma : R) : py R :=
  a <- d1 S K T r sigma ;;
  Ok (- norm.cdf (- a)).

Definition put_gamma (S K T r sigma : R) : py R :=
  a <- d1 S K T r sigma ;;
  s <- math.sqrt T ;;
  norm.pdf a // (S * sigma * s).

Definition put_vega (S K T r sigma : R) : py R :=
  a <- d1 S K T r sigma ;;
  s <- math.sqrt T ;;
  Ok (0.01 * (S * norm.pdf a * s)).

Definition put_theta (S K T r sigma : R) : py R :=
  a <- d1 S K T r sigma ;;
  s <- math.sqrt T ;;
  t <- (- (S * norm.pdf a * sigma)) // (2 * s) ;;
  b <- d2 S K T r sigma ;;
  Ok (0.01 * (t + r * K * exp (- r * T) * norm.cdf (- b))).

Definition put_rho (S K T r sigma : R) : py R :=
  b <- d2 S K T r sigma ;;
  Ok (0.01 * (- K * T * exp (- r * T) * norm.cdf (- b))).

(** ** The implied-volatility scan *)

(** The notebook's module-level variables. *)
Record Globals : Type := mkGlobals {
  g_S : R;
  g_K : R;
  g_T : R;
  g_r : R;
  g_sigma : R;
  g_option : string;
  g_Price : R
}.

(** [implied_volatility] returns a float or a message string. *)
Inductive PyVal : Type :=
| PyFloat (x : R)
| PyStr (s : string).

(** One [while sigma < 1] loop of [implied_volatility]; [model] computes
    [Option_Price_implied] and [msg] is the string returned after the
    loop.  [None] means the fuel ran out. *)
Fixpoint scan (fuel : nat) (model : R -> py R) (msg : string)
    (Option_Price sigma : R) : option (py PyVal) :=
  match fuel with
  | O => None
  | Datatypes.S fuel' =>
      if Rlt_dec sigma 1 then
        match model sigma with
        | Raise e => Some (Raise e)
        | Ok Option_Price_implied =>
            if Rlt_dec (Option_Price - Option_Price_implied) 0.001
            then Some (Ok (PyFloat sigma))
            else scan fuel' model msg Option_Price (sigma + 0.001)
        end
      else Some (Ok (PyStr msg))
  end.

Definition call_model (S K T r sigma : R) : py R :=
  a <- d1 S K T r sigma ;;
  b <- d2 S K T r sigma ;;
  Ok (S * norm.cdf a - K * exp (- r * T) * norm.cdf b).

Definition put_model (S K T r sigma : R) : py R :=
  c <- call_price S K T r sigma ;;
  Ok (K * exp (- r * T) - S + c).

Definition msg_call : string :=
  "It could not find the right volatility of the call option.".

Definition msg_put : string :=
  "It could not find the right volatility of the put option.".

(** [implied_volatility(Option_Price,S,K,T,r)]; the option type is read
    from the global [option].  The [print] of the arguments does not
    influence the result and is left out. *)
Definition implied_volatility (fuel : nat) (g : Globals)
    (Option_Price S K T r : R) : option (py PyVal) :=
  if String.eqb (g_option g) "C" then
    scan fuel (call_model S K T r) msg_call Option_Price 0.001
  else
    scan fuel (put_model S K T r) msg_put Option_Price 0.001.

(** ** The formulas as the specification writes them *)

Module Spec.

Definition d1 (S K T r sigma : R) : R :=
  (ln (S / K) + (r + sigma ^ 2 / 2) * T) / (sigma * sqrt T).

Definition d2 (S K T r sigma : R) : R :=
  d1 S K T r sigma - sigma * sqrt T.

Definition call_price (S K T r sigma : R) : R :=
  S * norm.cdf (d1 S K T r sigma)
  - K * exp (- r * T) * norm.cdf (d2 S K T r sigma).

Definition put_price (S K T r sigma : R) : R :=
  K * exp (- r * T) * norm.cdf (- d2 S K T r sigma)
  - S * norm.cdf (- d1 S K T r sigma).

End Spec.

(** ** Values on the domain where nothing raises, and the solver's grid *)

(** What the body of [d1] and [d2] computes, in the parameter order of
    their definition. *)
Definition d1_val (S T K r sigma : R) : R :=
  (ln (S / K) + (r + sigma ^ 2 / 2) * T) / (sigma * sqrt T).

Definition d2_val (S T K r sigma : R) : R :=
  (ln (S / K) + (r - sigma ^ 2 / 2) * T) / (sigma * sqrt T).

Definition call_price_val (S K T r sigma : R) : R :=
  S * norm.cdf (d1_val S K T r sigma)
  - K * exp (- r * T) * norm.cdf (d2_val S K T r sigma).

Definition put_price_val (S K T r sigma : R) : R :=
  K * exp (- r * T) * norm.cdf (- d2_val S K T r sigma)
  - S * norm.cdf (- d1_val S K T r sigma).

(** A computation raises when it ends in an exception. *)
Definition raises {A : Type} (m : py A) : Prop := exists e, m = Raise e.

(** The [k]-th volatility of the grid 0.001, 0.002, ... *)
Definition grid (k : nat) : R := INR k * 0.001.

(** The stopping test of the loop, one-sided, for a model price
    [model_val]. *)
Definition hit (model_val : R -> R) (Option_Price sigma : R) : Prop :=
  Option_Price - model_val sigma < 0.001.

(** The branch [implied_volatility] takes, its model price, its message. *)
Definition is_call (g : Globals) : bool := String.eqb (g_option g) "C".

Definition Option_Price_implied (g : Globals) (S K T r sigma : R) : R :=
  if is_call g then call_price_val S K T r sigma
  else K * exp (- r * T) - S + call_price_val S K T r sigma.

Definition not_found (g : Globals) : string :=
  if is_call g then msg_call else msg_put.

Definition branch_model (g : Globals) (S K T r : R) : R -> py R :=
  if is_call g then call_model S K T r else put_model S K T r.

(** The price the notebook generates for the option type selected by the
    global [option]. *)
Definition generated_price (g : Globals) (S K T r sigma : R) : py R :=
  if is_call g then call_price S K T r sigma else put_price S K T r sigma.

(** The module-level variables after the notebook's demo cells, with the
    chosen option type. *)
Definition notebook_globals (opt : string) : Globals :=
  mkGlobals 100 100 0.367123 0.2 0.2 opt 8.

(** ** The cells around the functions *)

(** The ten sensitivities the table cell evaluates next to the prices. *)
Definition greeks : list (R -> R -> R -> R -> R -> py R) :=
  [call_delta; call_gamma; call_vega; call_rho; call_theta;
   put_delta; put_gamma; put_vega; put_rho; put_theta].

(** Naive datetimes are counted in microseconds.  [timedelta.days] is
    the difference in days rounded down, also when it is negative. *)
Definition microseconds_per_day : Z := 86400000000.

Definition timedelta_days (delta : Z) : Z :=
  (delta / microseconds_per_day)%Z.

(** [T = (expiration_date - datetime.utcnow()).days / 365]. *)
Definition time_to_maturity (expiration_date utcnow : Z) : R :=
  IZR (timedelta_days (expiration_date - utcnow)) / 365.

(** [n * s] on a string: [s] repeated [n] times. *)
Fixpoint str_repeat (n : nat) (s : string) : string :=
  match n with
  | O => EmptyString
  | Datatypes.S n' => (s ++ str_repeat n' s)%string
  end.

(** [100 * v] for what [implied_volatility] returns: a product on a
    float, a repetition on a string. *)
Definition times_100 (v : PyVal) : PyVal :=
  match v with
  | PyFloat x => PyFloat (100 * x)
  | PyStr s => PyStr (str_repeat 100 s)
  end.

(** The value [100 * implied_volatility(Price,S,K,T,r)] of the demo cell,
    on the module-level [Price], [S], [K], [T] and [r]. *)
Definition reported_volatility (fuel : nat) (g : Globals)
    : option (py PyVal) :=
  match
    implied_volatility fuel g (g_Price g) (g_S g) (g_K g) (g_T g) (g_r g)
  with
  | Some (Ok v) => Some (Ok (times_100 v))
  | other => other
  end.

Section Input.

(** [float(s)] on a string: [None] when it raises [ValueError].  Only
    finite floats are represented. *)
Variable float : string -> option R.

(** The loop that reads the volatility in percent: [sigma] is the answer
    to the first prompt, [inputs] the answers to the prompts that follow.
    [None] means the answers ran out.  After an answer out of [0, 100]
    the next answer is taken as it is and the loop is left. *)
Fixpoint read_sigma (sigma : string) (inputs : list string) {struct inputs}
    : option PyVal :=
  match float sigma with
  | Some x =>
      if Rlt_dec 100 x then
        match inputs with
        | [] => None
        | again :: _ => Some (PyStr again)
        end
      else if Rlt_dec x 0 then
        match inputs with
        | [] => None
        | again :: _ => Some (PyStr again)
        end
      else Some (PyFloat x)
  | None =>
      match inputs with
      | [] => None
      | again :: inputs' => read_sigma again inputs'
      end
  end.

(** The whole reading: the first prompt, then the loop. *)
Definition read_sigma_cell (answers : list string) : option PyVal :=
  match answers with
  | [] => None
  | sigma :: inputs => read_sigma sigma inputs
  end.

End Input.

(** A stand-in for [float] that knows two answers, for examples. *)
Definition demo_float (s : string) : option R :=
  if String.eqb s "150" then Some 150
  else if String.eqb s "20" then Some 20
  else None.

(** A result with the not-found message replaced by [msg]. *)
Definition with_message (msg : string) (res : option (py PyVal))
    : option (py PyVal) :=
  match res with
  | Some (Ok (PyStr _)) => Some (Ok (PyStr msg))
  | other => other
  end.

(** ** Names inside [implied_volatility] *)

(** A namespace binds names to values.  A call of [implied_volatility]
    runs with a frame of its own and the module namespace of the
    notebook. *)
Definition Namespace : Type := string -> option PyVal.

Definition empty_namespace : Namespace := fun _ => None.

Definition assign (x : string) (v : PyVal) (ns : Namespace) : Namespace :=
  fun y => if String.eqb y x then Some v else ns y.

(** The module namespace that holds the variables of [g]. *)
Definition module_namespace (g : Globals) : Namespace :=
  assign "S" (PyFloat (g_S g))
    (assign "K" (PyFloat (g_K g))
       (assign "T" (PyFloat (g_T g))
          (assign "r" (PyFloat (g_r g))
             (assign "sigma" (PyFloat (g_sigma g))
                (assign "option" (PyStr (g_option g))
                   (assign "Price" (PyFloat (g_Price g))
                      empty_namespace)))))).

(** The names that are local to [implied_volatility]: its parameters and
    the names its body assigns. *)
Definition implied_volatility_locals : list string :=
  ["Option_Price"; "S"; "K"; "T"; "r"; "sigma";
   "Option_Price_implied"]%string.

Definition is_local (x : string) : bool :=
  existsb (String.eqb x) implied_volatility_locals.

(** What a run ends in once names are looked up: the exceptions of the
    arithmetic, and those of a name that is not bound or holds a string
    where a float is needed. *)
Inductive Exn : Type :=
| Arithmetic (e : PyExc)
| NameError
| UnboundLocalError
| TypeError.

Inductive outcome (A : Type) : Type :=
| Value (a : A)
| Exception (e : Exn).

Arguments Value {A} a.
Arguments Exception {A} e.

Definition obind {A B : Type} (m : outcome A) (k : A -> outcome B)
    : outcome B :=
  match m with
  | Value a => k a
  | Exception e => Exception e
  end.

Notation "x <~ m ;; k" := (obind m (fun x => k))
  (at level 61, m at next level, right associativity).

(** Reading the name [x] in the body: a local name is read in the frame,
    any other name in the module namespace. *)
Definition load (frame globals : Namespace) (x : string) : outcome PyVal :=
  if is_local x then
    match frame x with
    | Some v => Value v
    | None => Exception UnboundLocalError
    end
  else
    match globals x with
    | Some v => Value v
    | None => Exception NameError
    end.

(** Reading [x] where the arithmetic needs a float. *)
Definition load_float (frame globals : Namespace) (x : string) : outcome R :=
  v <~ load frame globals x ;;
  match v with
  | PyFloat a => Value a
  | PyStr _ => Exception TypeError
  end.

(** [v == 'C']. *)
Definition equals_C (v : PyVal) : bool :=
  match v with
  | PyStr s => String.eqb s "C"
  | PyFloat _ => false
  end.

(** The model price of a branch, its five arguments read by name. *)
Definition model_in_frame (model : R -> R -> R -> R -> R -> py R)
    (frame globals : Namespace) : outcome R :=
  S <~ load_float frame globals "S" ;;
  K <~ load_float frame globals "K" ;;
  T <~ load_float frame globals "T" ;;
  r <~ load_float frame globals "r" ;;
  sigma <~ load_float frame globals "sigma" ;;
  match model S K T r sigma with
  | Ok v => Value v
  | Raise e => Exception (Arithmetic e)
  end.

(** The [while] loop with every variable read and assigned by name. *)
Fixpoint scan_frame (fuel : nat) (model : R -> R -> R -> R -> R -> py R)
    (msg : string) (globals frame : Namespace) : option (outcome PyVal) :=
  match fuel with
  | O => None
  | Datatypes.S fuel' =>
      match load_float frame globals "sigma" with
      | Exception e => Some (Exception e)
      | Value sigma =>
          if Rlt_dec sigma 1 then
            match model_in_frame model frame globals with
            | Exception e => Some (Exception e)
            | Value implied =>
                let frame1 :=
                  assign "Option_Price_implied" (PyFloat implied) frame in
                match
                  P <~ load_float frame1 globals "Option_Price" ;;
                  i <~ load_float frame1 globals "Option_Price_implied" ;;
                  Value (P - i)
                with
                | Exception e => Some (Exception e)
                | Value gap =>
                    if Rlt_dec gap 0.001
                    then Some (load frame1 globals "sigma")
                    else
                      match load_float frame1 globals "sigma" with
                      | Exception e => Some (Exception e)
                      | Value s =>
                          scan_frame fuel' model msg globals
                            (assign "sigma" (PyFloat (s + 0.001)) frame1)
                      end
                end
            end
          else Some (Value (PyStr msg))
      end
  end.

(** The frame at the first line of the body: the parameters bound to the
    arguments, then [sigma = 0.001]. *)
Definition initial_frame (Option_Price S K T r : R) : Namespace :=
  assign "sigma" (PyFloat 0.001)
    (assign "r" (PyFloat r)
       (assign "T" (PyFloat T)
          (assign "K" (PyFloat K)
             (assign "S" (PyFloat S)
                (assign "Option_Price" (PyFloat Option_Price)
                   empty_namespace))))).

(** A call [implied_volatility(Option_Price,S,K,T,r)] in the module
    namespace [globals]. *)
Definition implied_volatility_in (fuel : nat) (globals : Namespace)
    (Option_Price S K T r : R) : option (outcome PyVal) :=
  let frame := initial_frame Option_Price S K T r in
  match load frame globals "option" with
  | Exception e => Some (Exception e)
  | Value opt =>
      if equals_C opt
      then scan_frame fuel call_model msg_call globals frame
      else scan_frame fuel put_model msg_put globals frame
  end.

(** The frame binds the parameters to the arguments and [sigma] to the
    current volatility. *)
Definition frame_binds (frame : Namespace)
    (Option_Price S K T r sigma : R) : Prop :=
  frame "Option_Price"%string = Some (PyFloat Option_Price) /\
  frame "S"%string = Some (PyFloat S) /\
  frame "K"%string = Some (PyFloat K) /\
  frame "T"%string = Some (PyFloat T) /\
  frame "r"%string = Some (PyFloat r) /\
  frame "sigma"%string = Some (PyFloat sigma).

(** A result of [implied_volatility] as an outcome. *)
Definition as_outcome (res : option (py PyVal)) : option (outcome PyVal) :=
  match res with
  | Some (Ok v) => Some (Value v)
  | Some (Raise e) => Some (Exception (Arithmetic e))
  | None => None
  end.

(** ** Reading the volatility, with the floats that are not numbers *)

(** What [float] returns on a string it accepts: a finite number, an
    infinity or nan. *)
Inductive PyFloatVal : Type :=
| Finite (x : R)
| Infinite (positive : bool)
| NaN.

(** [f > 100] and [f < 0]; every comparison with nan is false. *)
Definition gt_100 (f : PyFloatVal) : bool :=
  match f with
  | Finite x => if Rlt_dec 100 x then true else false
  | Infinite positive => positive
  | NaN => false
  end.

Definition lt_0 (f : PyFloatVal) : bool :=
  match f with
  | Finite x => if Rlt_dec x 0 then true else false
  | Infinite positive => negb positive
  | NaN => false
  end.

(** What the reading loop leaves in [sigma]. *)
Inductive SigmaVal : Type :=
| SigmaFloat (f : PyFloatVal)
| SigmaStr (s : string).

Section InputFloats.

(** [float(s)]: [None] when it raises [ValueError]. *)
Variable float : string -> option PyFloatVal.

(** The loop of [read_sigma], on all the floats [float] can return. *)
Fixpoint read_volatility (sigma : string) (inputs : list string)
    {struct inputs} : option SigmaVal :=
  match float sigma with
  | Some f =>
      if orb (gt_100 f) (lt_0 f) then
        match inputs with
        | [] => None
        | again :: _ => Some (SigmaStr again)
        end
      else Some (SigmaFloat f)
  | None =>
      match inputs with
      | [] => None
      | again :: inputs' => read_volatility again inputs'
      end
  end.

End InputFloats.

(** A stand-in for [float] that knows three answers, for examples. *)
Definition demo_float_nan (s : string) : option PyFloatVal :=
  if String.eqb s "nan" then Some NaN
  else if String.eqb s "150" then Some (Finite 150)
  else if String.eqb s "20" then Some (Finite 20)
  else None.

(** [read_sigma]'s results among those of [read_volatility]. *)
Definition sigma_val (v : PyVal) : SigmaVal :=
  match v with
  | PyFloat x => SigmaFloat (Finite x)
  | PyStr s => SigmaStr s
  end.

(** ** The standard normal distribution *)

Lemma sqrt_2PI_pos : 0 < sqrt (2 * PI).
Proof. apply sqrt_lt_R0. generalize PI_RGT_0. lra. Qed.

Lemma pdf_pos (x : R) : 0 < norm.pdf x.
Proof.
  unfold norm.pdf. apply Rdiv_lt_0_compat; [apply exp_pos | apply sqrt_2PI_pos].
Qed.

Lemma pdf_even (x : R) : norm.pdf (- x) = norm.pdf x.
Proof. unfold norm.pdf. f_equal. f_equal. lra. Qed.

Lemma pdf_continuity : continuity norm.pdf.
Proof.
  apply derivable_continuous.
  unfold norm.pdf.
  assert (H : sqrt (2 * PI) <> 0) by (generalize sqrt_2PI_pos; lra).
  reg.
Qed.

(** The density decreases with the distance from the origin. *)
Lemma pdf_antitone (x y : R) : Rabs x <= Rabs y -> norm.pdf y <= norm.pdf x.
Proof.
  intros Hxy. unfold norm.pdf.
  apply Rmult_le_compat_r.
  - left. apply Rinv_0_lt_compat, sqrt_2PI_pos.
  - assert (Hsq : x * x <= y * y).
    { apply Rsqr_le_abs_1 in Hxy. exact Hxy. }
    destruct (Rle_lt_or_eq_dec _ _ Hsq) as [Hlt | Heq].
    + left. apply exp_increasing. lra.
    + rewrite Heq. apply Rle_refl.
Qed.

Lemma pdf_le_mode (x : R) : norm.pdf x <= norm.pdf 0.
Proof. apply pdf_antitone. rewrite Rabs_R0. apply Rabs_pos. Qed.

(** Chasles: the increment of [cdf] is the integral of the density. *)
Lemma cdf_increment (a b : R) :
  norm.cdf b - norm.cdf a = RiemannInt (norm.pdf_integrable a b).
Proof.
  unfold norm.cdf.
  rewrite <- (RiemannInt_P26 (norm.pdf_integrable 0 a) (norm.pdf_integrable a b)
                (norm.pdf_integrable 0 b)).
  ring.
Qed.

Lemma cdf_increment_bounds (a b l u : R) :
  a <= b ->
  (forall x, a < x < b -> l <= norm.pdf x <= u) ->
  l * (b - a) <= norm.cdf b - norm.cdf a <= u * (b - a).
Proof.
  intros Hab Hlu. rewrite cdf_increment.
  apply RiemannInt_const_bound; assumption.
Qed.

(** On an interval inside [[-B, B]] the increment is at least
    [pdf B] per unit, and never more than [pdf 0] per unit. *)
Lemma cdf_increment_lower (a b B : R) :
  a <= b -> - B <= a -> b <= B ->
  norm.pdf B * (b - a) <= norm.cdf b - norm.cdf a.
Proof.
  intros Hab Ha Hb.
  apply (cdf_increment_bounds a b (norm.pdf B) (norm.pdf 0) Hab).
  intros x Hx. split; [ | apply pdf_le_mode ].
  apply pdf_antitone.
  rewrite (Rabs_pos_eq B) by lra.
  apply Rabs_le. lra.
Qed.

Lemma cdf_increment_upper (a b : R) :
  a <= b -> norm.cdf b - norm.cdf a <= norm.pdf 0 * (b - a).
Proof.
  intros Hab.
  apply (cdf_increment_bounds a b 0 (norm.pdf 0) Hab).
  intros x _. split; [ left; apply pdf_pos | apply pdf_le_mode ].
Qed.

Lemma cdf_increasing (a b : R) : a < b -> norm.cdf a < norm.cdf b.
Proof.
  intros Hab.
  pose (B := Rmax (Rabs a) (Rabs b)).
  assert (HB : norm.pdf B * (b - a) <= norm.cdf b - norm.cdf a).
  { apply cdf_increment_lower; [lra | | ].
    - generalize (Rmax_l (Rabs a) (Rabs b)) (Rle_abs (- a)).
      rewrite Rabs_Ropp. fold B. lra.
    - generalize (Rmax_r (Rabs a) (Rabs b)) (Rle_abs b). fold B. lra. }
  assert (0 < norm.pdf B * (b - a)).
  { apply Rmult_lt_0_compat; [apply pdf_pos | lra]. }
  lra.
Qed.

Lemma cdf_monotone (a b : R) : a <= b -> norm.cdf a <= norm.cdf b.
Proof.
  intros [Hlt | ->]; [left; now apply cdf_increasing | apply Rle_refl].
Qed.

Lemma cdf_injective (a b : R) : norm.cdf a = norm.cdf b -> a = b.
Proof.
  intros Heq. destruct (Rtotal_order a b) as [Hlt | [Heq' | Hgt]]; auto.
  - apply cdf_increasing in Hlt. lra.
  - apply cdf_increasing in Hgt. lra.
Qed.

Lemma cdf_0 : norm.cdf 0 = 1 / 2.
Proof. unfold norm.cdf. rewrite RiemannInt_P9. lra. Qed.

(** The fundamental theorem of calculus for [cdf]: its derivative is the
    density. *)
Lemma cdf_derivable_pt_lim (x : R) : derivable_pt_lim norm.cdf x (norm.pdf x).
Proof.
  intros eps Heps.
  assert (Heps2 : 0 < eps / 2) by lra.
  destruct (pdf_continuity x (eps / 2) Heps2) as [alp [Halp Hcont]].
  assert (Hnear : forall y, Rabs (y - x) < alp ->
                    norm.pdf x - eps / 2 <= norm.pdf y <= norm.pdf x + eps / 2).
  { intros y Hy.
    destruct (Req_dec x y) as [<- | Hne]; [lra | ].
    assert (Hd : Rabs (norm.pdf y - norm.pdf x) < eps / 2).
    { apply (Hcont y). split; [ split; [exact I | exact Hne] | exact Hy ]. }
    apply Rabs_def2 in Hd. lra. }
  exists (mkposreal alp Halp). simpl. intros h Hh Hhalp.
  destruct (Rlt_le_dec 0 h) as [Hpos | Hneg].
  - assert (Hb : (norm.pdf x - eps / 2) * (x + h - x) <= norm.cdf (x + h) - norm.cdf x
                 <= (norm.pdf x + eps / 2) * (x + h - x)).
    { apply cdf_increment_bounds; [lra | ].
      intros y Hy. apply Hnear.
      apply Rabs_def1; apply Rabs_def2 in Hhalp; lra. }
    replace (x + h - x) with h in Hb by ring.
    apply Rabs_def1.
    + apply Rmult_lt_reg_r with h; [exact Hpos | ].
      unfold Rdiv at 1. rewrite Rmult_minus_distr_r, Rmult_assoc,
        Rinv_l, Rmult_1_r by lra. nra.
    + apply Rmult_lt_reg_r with h; [exact Hpos | ].
      unfold Rdiv at 1. rewrite Rmult_minus_distr_r, Rmult_assoc,
        Rinv_l, Rmult_1_r by lra. nra.
  - assert (Hlt : h < 0) by lra.
    assert (Hb : (norm.pdf x - eps / 2) * (x - (x + h)) <= norm.cdf x - norm.cdf (x + h)
                 <= (norm.pdf x + eps / 2) * (x - (x + h))).
    { apply cdf_increment_bounds; [lra | ].
      intros y Hy. apply Hnear.
      apply Rabs_def1; apply Rabs_def2 in Hhalp; lra. }
    replace (x - (x + h)) with (- h) in Hb by ring.
    apply Rabs_def1.
    + apply Rmult_lt_reg_r with (- h); [lra | ].
      replace (((norm.cdf (x + h) - norm.cdf x) / h - norm.pdf x) * - h)
        with (norm.cdf x - norm.cdf (x + h) - norm.pdf x * - h) by (field; lra).
      nra.
    + apply Rmult_lt_reg_r with (- h); [lra | ].
      replace (((norm.cdf (x + h) - norm.cdf x) / h - norm.pdf x) * - h)
        with (norm.cdf x - norm.cdf (x + h) - norm.pdf x * - h) by (field; lra).
      nra.
Qed.

Lemma cdf_derivable : derivable norm.cdf.
Proof. intros x. exists (norm.pdf x). apply cdf_derivable_pt_lim. Qed.

(** Symmetry of the distribution: [norm.cdf (-x) = 1 - norm.cdf x]. *)
Lemma cdf_opp (x : R) : norm.cdf (- x) = 1 - norm.cdf x.
Proof.
  pose (G := (norm.cdf + comp norm.cdf (- id))%F).
  assert (HG : forall y, derivable_pt_lim G y 0).
  { intros y. unfold G.
    replace 0 with (norm.pdf y + norm.pdf (- y) * (- 1)) by (rewrite pdf_even; ring).
    apply derivable_pt_lim_plus; [apply cdf_derivable_pt_lim | ].
    apply derivable_pt_lim_comp.
    - apply derivable_pt_lim_opp, derivable_pt_lim_id.
    - apply cdf_derivable_pt_lim. }
  assert (Hd : derivable G).
  { intros y. exists 0. apply HG. }
  assert (Hc : constant G).
  { apply (null_derivative_1 G Hd). intros y.
    apply derive_pt_eq_0, HG. }
  specialize (Hc x 0). unfold G, plus_fct, comp, opp_fct, id in Hc.
  rewrite Ropp_0, cdf_0 in Hc. lra.
Qed.

(** ** Python arithmetic and the pricing functions where nothing raises *)

Lemma py_div_ok (x y : R) : y <> 0 -> x // y = Ok (x / y).
Proof.
  intros Hy. unfold py_div. destruct (Req_dec_T y 0); [contradiction | reflexivity].
Qed.

Lemma py_div_zero (x : R) : x // 0 = Raise ZeroDivisionError.
Proof.
  unfold py_div. destruct (Req_dec_T 0 0) as [_ | Hne]; [reflexivity | now elim Hne].
Qed.

Lemma log_ok (x : R) : 0 < x -> math.log x = Ok (ln x).
Proof.
  intros Hx. unfold math.log. destruct (Rlt_dec 0 x); [reflexivity | contradiction].
Qed.

Lemma log_raises (x : R) : x <= 0 -> math.log x = Raise ValueError.
Proof.
  intros Hx. unfold math.log. destruct (Rlt_dec 0 x); [lra | reflexivity].
Qed.

Lemma sqrt_ok (x : R) : 0 <= x -> math.sqrt x = Ok (sqrt x).
Proof.
  intros Hx. unfold math.sqrt. destruct (Rle_dec 0 x); [reflexivity | contradiction].
Qed.

Lemma d1_ok (S T K r sigma : R) :
  0 < S -> 0 < T -> 0 < K -> sigma <> 0 ->
  d1 S T K r sigma = Ok (d1_val S T K r sigma).
Proof.
  intros HS HT HK Hs. unfold d1, d1_val.
  rewrite py_div_ok by lra. cbn [bind].
  rewrite log_ok by (apply Rdiv_lt_0_compat; assumption). cbn [bind].
  rewrite sqrt_ok by lra. cbn [bind].
  apply py_div_ok.
  apply Rmult_integral_contrapositive_currified; [assumption | ].
  generalize (sqrt_lt_R0 T HT). lra.
Qed.

Lemma d2_ok (S T K r sigma : R) :
  0 < S -> 0 < T -> 0 < K -> sigma <> 0 ->
  d2 S T K r sigma = Ok (d2_val S T K r sigma).
Proof.
  intros HS HT HK Hs. unfold d2, d2_val.
  rewrite py_div_ok by lra. cbn [bind].
  rewrite log_ok by (apply Rdiv_lt_0_compat; assumption). cbn [bind].
  rewrite sqrt_ok by lra. cbn [bind].
  apply py_div_ok.
  apply Rmult_integral_contrapositive_currified; [assumption | ].
  generalize (sqrt_lt_R0 T HT). lra.
Qed.

Lemma call_price_ok (S K T r sigma : R) :
  0 < S -> 0 < K -> 0 < T -> sigma <> 0 ->
  call_price S K T r sigma = Ok (call_price_val S K T r sigma).
Proof.
  intros HS HK HT Hs. unfold call_price.
  rewrite d1_ok, d2_ok by assumption. reflexivity.
Qed.

Lemma put_price_ok (S K T r sigma : R) :
  0 < S -> 0 < K -> 0 < T -> sigma <> 0 ->
  put_price S K T r sigma = Ok (put_price_val S K T r sigma).
Proof.
  intros HS HK HT Hs. unfold put_price.
  rewrite d1_ok, d2_ok by assumption. reflexivity.
Qed.

(** [d2] is [d1] less [sigma * sqrt T], in the callee's own parameters. *)
Lemma d2_val_d1_val (S T K r sigma : R) :
  0 < T -> sigma <> 0 ->
  d2_val S T K r sigma = d1_val S T K r sigma - sigma * sqrt T.
Proof.
  intros HT Hs. unfold d1_val, d2_val.
  assert (Hq : sqrt T <> 0) by (generalize (sqrt_lt_R0 T HT); lra).
  assert (HTT : sqrt T * sqrt T = T) by (apply sqrt_sqrt; lra).
  generalize (ln (S / K)) (sqrt T) Hq HTT. intros L q Hq' <-.
  field. split; assumption.
Qed.

(** Put-call parity of the value functions. *)
Lemma parity_val (S K T r sigma : R) :
  call_price_val S K T r sigma - put_price_val S K T r sigma
  = S - K * exp (- r * T).
Proof.
  unfold call_price_val, put_price_val. rewrite !cdf_opp. ring.
Qed.

Lemma sqrt_4 : sqrt 4 = 2.
Proof. replace 4 with (2 * 2) by ring. apply sqrt_square. lra. Qed.

Lemma ln_16 : ln 16 = 2 * ln 4.
Proof. replace 16 with (4 * 4) by ring. rewrite ln_mult by lra. ring. Qed.

(** ** Pricing: the formulas and their relations *)

(** C1 (code defect).  At S = 16, K = 1, T = 4, r = 1/2, sigma = 1 the
    notebook's [call_price] and [put_price] return values strictly below
    the prices S*Phi(d1) - K*exp(-r*T)*Phi(d2) and
    K*exp(-r*T)*Phi(-d2) - S*Phi(-d1) of the specification: [d1] and [d2]
    receive the strike where they expect the maturity and the maturity
    where they expect the strike. *)
Theorem C1_prices_differ_from_spec_formula :
  exists c p,
    call_price 16 1 4 (1 / 2) 1 = Ok c /\
    put_price 16 1 4 (1 / 2) 1 = Ok p /\
    c < Spec.call_price 16 1 4 (1 / 2) 1 /\
    p < Spec.put_price 16 1 4 (1 / 2) 1.
Proof.
  exists (call_price_val 16 1 4 (1 / 2) 1), (put_price_val 16 1 4 (1 / 2) 1).
  split; [apply call_price_ok; lra | ].
  split; [apply put_price_ok; lra | ].
  assert (Hd1 : d1_val 16 1 4 (1 / 2) 1 = ln 4 + 1).
  { unfold d1_val. replace (16 / 4) with 4 by lra. rewrite sqrt_1. field. }
  assert (Hd2 : d2_val 16 1 4 (1 / 2) 1 = ln 4).
  { unfold d2_val. replace (16 / 4) with 4 by lra. rewrite sqrt_1. field. }
  assert (Hs1 : Spec.d1 16 1 4 (1 / 2) 1 = ln 4 + 2).
  { unfold Spec.d1. replace (16 / 1) with 16 by lra.
    rewrite sqrt_4, ln_16. field. }
  assert (Hs2 : Spec.d2 16 1 4 (1 / 2) 1 = ln 4).
  { unfold Spec.d2. rewrite Hs1, sqrt_4. ring. }
  unfold call_price_val, put_price_val, Spec.call_price, Spec.put_price.
  rewrite Hd1, Hd2, Hs1, Hs2.
  assert (Hup : norm.cdf (ln 4 + 1) < norm.cdf (ln 4 + 2))
    by (apply cdf_increasing; lra).
  assert (Hdn : norm.cdf (- (ln 4 + 2)) < norm.cdf (- (ln 4 + 1)))
    by (apply cdf_increasing; lra).
  split; lra.
Qed.

(** C3 (as stated, refuted).  With a negative volatility the pricing
    functions return a number: nothing is raised at S = 100, K = 100,
    T = 1, r = 0.05, sigma = -0.2. *)
Lemma C3_negative_sigma_is_priced :
  call_price 100 100 1 0.05 (-0.2) = Ok (call_price_val 100 100 1 0.05 (-0.2))
  /\ put_price 100 100 1 0.05 (-0.2) = Ok (put_price_val 100 100 1 0.05 (-0.2))
  /\ ~ raises (call_price 100 100 1 0.05 (-0.2))
  /\ ~ raises (put_price 100 100 1 0.05 (-0.2)).
Proof.
  assert (Hc := call_price_ok 100 100 1 0.05 (-0.2)).
  assert (Hp := put_price_ok 100 100 1 0.05 (-0.2)).
  rewrite Hc, Hp by lra.
  repeat split; try reflexivity; intros [e He]; discriminate He.
Qed.

(** C3 (amended).  For S > 0 and K > 0 the pricing functions validate
    nothing and raise only what Python's arithmetic raises:
    [ZeroDivisionError] when T = 0, [ValueError] when T < 0,
    [ZeroDivisionError] when T > 0 and sigma = 0; when T > 0 and
    sigma < 0 they return a number. *)
Theorem C3_pricing_exceptions (S K T r sigma : R) :
  0 < S -> 0 < K ->
  (T = 0 ->
     call_price S K T r sigma = Raise ZeroDivisionError /\
     put_price S K T r sigma = Raise ZeroDivisionError) /\
  (T < 0 ->
     call_price S K T r sigma = Raise ValueError /\
     put_price S K T r sigma = Raise ValueError) /\
  (0 < T -> sigma = 0 ->
     call_price S K T r sigma = Raise ZeroDivisionError /\
     put_price S K T r sigma = Raise ZeroDivisionError) /\
  (0 < T -> sigma < 0 ->
     exists c p,
       call_price S K T r sigma = Ok c /\ put_price S K T r sigma = Ok p).
Proof.
  intros HS HK.
  assert (Hlog : T < 0 -> S / T <= 0).
  { intros HT. left. apply Ropp_lt_cancel. rewrite Ropp_0, <- Rdiv_opp_r.
    apply Rdiv_lt_0_compat; lra. }
  split; [ | split; [ | split ] ].
  - intros ->. unfold call_price, put_price, d1, d2.
    now rewrite py_div_zero.
  - intros HT. unfold call_price, put_price, d1, d2.
    rewrite py_div_ok by lra. cbn [bind].
    now rewrite log_raises by auto.
  - intros HT ->. unfold call_price, put_price, d1, d2.
    rewrite py_div_ok by lra. cbn [bind].
    rewrite log_ok by (apply Rdiv_lt_0_compat; assumption). cbn [bind].
    rewrite sqrt_ok by lra. cbn [bind].
    rewrite !Rmult_0_l, !py_div_zero. split; reflexivity.
  - intros HT Hs.
    exists (call_price_val S K T r sigma), (put_price_val S K T r sigma).
    split; [apply call_price_ok | apply put_price_ok]; lra.
Qed.

Lemma C3_pricing_exceptions_witness :
  call_price 100 100 0 0.05 0.2 = Raise ZeroDivisionError /\
  put_price 100 100 0 0.05 0.2 = Raise ZeroDivisionError.
Proof.
  assert (H100 : 0 < 100) by lra.
  exact (proj1 (C3_pricing_exceptions 100 100 0 0.05 0.2 H100 H100) eq_refl).
Defined.

(** C4.  Put-call parity: for S, K, T, sigma > 0 both prices are returned
    and call - put = S - K*exp(-r*T). *)
Theorem C4_put_call_parity (S K T r sigma : R) :
  0 < S -> 0 < K -> 0 < T -> 0 < sigma ->
  exists c p,
    call_price S K T r sigma = Ok c /\
    put_price S K T r sigma = Ok p /\
    c - p = S - K * exp (- r * T).
Proof.
  intros HS HK HT Hs.
  exists (call_price_val S K T r sigma), (put_price_val S K T r sigma).
  split; [apply call_price_ok; lra | ].
  split; [apply put_price_ok; lra | apply parity_val].
Qed.

Lemma C4_put_call_parity_witness :
  exists c p,
    call_price 100 100 0.5 0.05 0.2 = Ok c /\
    put_price 100 100 0.5 0.05 0.2 = Ok p /\
    c - p = 100 - 100 * exp (- (0.05) * 0.5).
Proof. apply (C4_put_call_parity 100 100 0.5 0.05 0.2); lra. Defined.

(** C7.  For S, K, T, sigma > 0 the call and put gamma are the same
    returned number, and so are the call and put vega. *)
Theorem C7_gamma_vega_equal (S K T r sigma : R) :
  0 < S -> 0 < K -> 0 < T -> 0 < sigma ->
  exists gam veg,
    call_gamma S K T r sigma = Ok gam /\
    put_gamma S K T r sigma = Ok gam /\
    call_vega S K T r sigma = Ok veg /\
    put_vega S K T r sigma = Ok veg.
Proof.
  intros HS HK HT Hs.
  exists (norm.pdf (d1_val S K T r sigma) / (S * sigma * sqrt T)),
         (0.01 * (S * norm.pdf (d1_val S K T r sigma) * sqrt T)).
  assert (Hden : S * sigma * sqrt T <> 0).
  { generalize (sqrt_lt_R0 T HT). intros Hq.
    apply Rgt_not_eq. repeat apply Rmult_lt_0_compat; assumption. }
  unfold call_gamma, put_gamma, call_vega, put_vega.
  rewrite d1_ok by lra. cbn [bind].
  rewrite sqrt_ok by lra. cbn [bind].
  rewrite py_div_ok by assumption.
  repeat split.
Qed.

Lemma C7_gamma_vega_equal_witness :
  exists gam veg,
    call_gamma 100 100 0.5 0.05 0.2 = Ok gam /\
    put_gamma 100 100 0.5 0.05 0.2 = Ok gam /\
    call_vega 100 100 0.5 0.05 0.2 = Ok veg /\
    put_vega 100 100 0.5 0.05 0.2 = Ok veg.
Proof. apply (C7_gamma_vega_equal 100 100 0.5 0.05 0.2); lra. Defined.

(** C9.  For S, K, T, sigma > 0, with [a] the value the call
    [d1(S,K,T,r,sigma)] returns, the call delta is Phi(a) and the put
    delta is Phi(a) - 1: the put delta is the call delta minus 1. *)
Theorem C9_put_delta_is_call_delta_minus_1 (S K T r sigma : R) :
  0 < S -> 0 < K -> 0 < T -> 0 < sigma ->
  exists a,
    d1 S K T r sigma = Ok a /\
    call_delta S K T r sigma = Ok (norm.cdf a) /\
    put_delta S K T r sigma = Ok (norm.cdf a - 1).
Proof.
  intros HS HK HT Hs. exists (d1_val S K T r sigma).
  unfold call_delta, put_delta.
  rewrite d1_ok by lra. cbn [bind].
  repeat split. f_equal. rewrite cdf_opp. ring.
Qed.

Lemma C9_put_delta_is_call_delta_minus_1_witness :
  exists a,
    d1 100 100 0.5 0.05 0.2 = Ok a /\
    call_delta 100 100 0.5 0.05 0.2 = Ok (norm.cdf a) /\
    put_delta 100 100 0.5 0.05 0.2 = Ok (norm.cdf a - 1).
Proof.
  apply (C9_put_delta_is_call_delta_minus_1 100 100 0.5 0.05 0.2); lra.
Defined.

(** ** The scan loop *)

Lemma grid_from_first (k : nat) : 0.001 + INR k * 0.001 = grid (S k).
Proof. unfold grid. rewrite S_INR. ring. Qed.

Lemma grid_lt_1 (k : nat) : (k <= 999)%nat -> grid k < 1.
Proof.
  intros Hk. unfold grid. apply le_INR in Hk.
  replace (INR 999) with 999 in Hk by (simpl; lra). lra.
Qed.

Lemma grid_1000 : grid 1000 = 1.
Proof. unfold grid. replace (INR 1000) with 1000 by (simpl; lra). lra. Qed.

Lemma grid_pos (k : nat) : (1 <= k)%nat -> 0 < grid k.
Proof.
  intros Hk. unfold grid. apply le_INR in Hk. simpl in Hk. lra.
Qed.

Section Scan.

Variable model : R -> py R.
Variable model_val : R -> R.
Variable msg : string.
Variable Option_Price : R.

Hypothesis model_ok :
  forall sigma, 0 < sigma -> model sigma = Ok (model_val sigma).

Lemma scan_step (fuel : nat) (sigma : R) :
  0 < sigma -> sigma < 1 ->
  scan (S fuel) model msg Option_Price sigma =
  if Rlt_dec (Option_Price - model_val sigma) 0.001
  then Some (Ok (PyFloat sigma))
  else scan fuel model msg Option_Price (sigma + 0.001).
Proof.
  intros Hpos Hlt. cbn [scan].
  destruct (Rlt_dec sigma 1); [ | contradiction ].
  now rewrite model_ok.
Qed.

Lemma scan_exit (fuel : nat) (sigma : R) :
  1 <= sigma ->
  scan (S fuel) model msg Option_Price sigma = Some (Ok (PyStr msg)).
Proof.
  intros Hge. cbn [scan]. destruct (Rlt_dec sigma 1); [lra | reflexivity].
Qed.

(** If the test holds [k] steps ahead, the loop returns the first
    volatility, at most [k] steps ahead, at which it holds. *)
Lemma scan_first_hit (k : nat) :
  forall (fuel : nat) (sigma : R),
    (k < fuel)%nat -> 0 < sigma ->
    sigma + INR k * 0.001 < 1 ->
    hit model_val Option_Price (sigma + INR k * 0.001) ->
    exists j,
      (j <= k)%nat /\
      scan fuel model msg Option_Price sigma
      = Some (Ok (PyFloat (sigma + INR j * 0.001))) /\
      hit model_val Option_Price (sigma + INR j * 0.001) /\
      forall i, (i < j)%nat -> ~ hit model_val Option_Price (sigma + INR i * 0.001).
Proof.
  induction k as [ | k IH]; intros fuel sigma Hfuel Hpos Hlt Hhit.
  - destruct fuel as [ | fuel]; [lia | ].
    simpl INR in *. rewrite Rmult_0_l, Rplus_0_r in Hlt, Hhit.
    exists 0%nat. simpl INR. rewrite Rmult_0_l, Rplus_0_r.
    rewrite scan_step by assumption.
    unfold hit in Hhit.
    destruct (Rlt_dec (Option_Price - model_val sigma) 0.001);
      [ | contradiction ].
    repeat split; auto. intros i Hi. lia.
  - destruct fuel as [ | fuel]; [lia | ].
    assert (Hk : 0 <= INR k) by apply pos_INR.
    rewrite S_INR in Hlt, Hhit.
    rewrite scan_step by lra.
    destruct (Rlt_dec (Option_Price - model_val sigma) 0.001) as [Hnow | Hnot].
    + exists 0%nat. simpl INR. rewrite Rmult_0_l, Rplus_0_r.
      repeat split; auto; [lia | ]. intros i Hi. lia.
    + destruct (IH fuel (sigma + 0.001)) as [j [Hj [Hscan [Hhitj Hfirst]]]].
      * lia.
      * lra.
      * lra.
      * replace (sigma + 0.001 + INR k * 0.001)
          with (sigma + (INR k + 1) * 0.001) by ring. exact Hhit.
      * exists (S j). rewrite S_INR.
        replace (sigma + (INR j + 1) * 0.001)
          with (sigma + 0.001 + INR j * 0.001) by ring.
        repeat split; auto; [lia | ].
        intros [ | i] Hi.
        -- simpl INR. rewrite Rmult_0_l, Rplus_0_r. exact Hnot.
        -- rewrite S_INR.
           replace (sigma + (INR i + 1) * 0.001)
             with (sigma + 0.001 + INR i * 0.001) by ring.
           apply Hfirst. lia.
Qed.

(** If the test fails at every volatility below 1, the loop leaves
    with the message once [sigma] has reached 1. *)
Lemma scan_no_hit (n : nat) :
  forall (fuel : nat) (sigma : R),
    (n < fuel)%nat -> 0 < sigma ->
    1 <= sigma + INR n * 0.001 ->
    (forall i, (i < n)%nat -> sigma + INR i * 0.001 < 1 ->
               ~ hit model_val Option_Price (sigma + INR i * 0.001)) ->
    scan fuel model msg Option_Price sigma = Some (Ok (PyStr msg)).
Proof.
  induction n as [ | n IH]; intros fuel sigma Hfuel Hpos Hge Hno.
  - destruct fuel as [ | fuel]; [lia | ].
    simpl INR in Hge. apply scan_exit. lra.
  - destruct fuel as [ | fuel]; [lia | ].
    destruct (Rlt_le_dec sigma 1) as [Hlt | Hle]; [ | now apply scan_exit ].
    rewrite scan_step by assumption.
    destruct (Rlt_dec (Option_Price - model_val sigma) 0.001) as [Hnow | Hnot].
    + exfalso. apply (Hno 0%nat); [lia | | ];
        simpl INR; rewrite Rmult_0_l, Rplus_0_r; assumption.
    + apply IH; [lia | lra | | ].
      * rewrite S_INR in Hge. lra.
      * intros i Hi Hlti.
        replace (sigma + 0.001 + INR i * 0.001)
          with (sigma + INR (S i) * 0.001) in * by (rewrite S_INR; ring).
        apply Hno; [lia | assumption].
Qed.

End Scan.

(** Two models that agree on the positive volatilities give the same
    scan. *)
Lemma scan_ext (m1 m2 : R -> py R) (msg : string) (P : R) :
  (forall sigma, 0 < sigma -> m1 sigma = m2 sigma) ->
  forall (fuel : nat) (sigma : R),
    0 < sigma -> scan fuel m1 msg P sigma = scan fuel m2 msg P sigma.
Proof.
  intros Hagree. induction fuel as [ | fuel IH]; intros sigma Hpos.
  - reflexivity.
  - cbn [scan]. rewrite (Hagree sigma Hpos).
    destruct (Rlt_dec sigma 1); [ | reflexivity ].
    destruct (m2 sigma) as [v | e]; [ | reflexivity ].
    destruct (Rlt_dec (P - v) 0.001); [reflexivity | ].
    apply IH. lra.
Qed.

Lemma implied_volatility_branch (fuel : nat) (g : Globals) (P S K T r : R) :
  implied_volatility fuel g P S K T r
  = scan fuel (branch_model g S K T r) (not_found g) P 0.001.
Proof.
  unfold implied_volatility, branch_model, not_found, is_call.
  destruct (String.eqb (g_option g) "C"); reflexivity.
Qed.

Lemma branch_model_ok (g : Globals) (S K T r sigma : R) :
  0 < S -> 0 < K -> 0 < T -> 0 < sigma ->
  branch_model g S K T r sigma = Ok (Option_Price_implied g S K T r sigma).
Proof.
  intros HS HK HT Hs. unfold branch_model, Option_Price_implied.
  destruct (is_call g).
  - unfold call_model. rewrite d1_ok, d2_ok by lra. reflexivity.
  - unfold put_model. rewrite call_price_ok by lra. reflexivity.
Qed.

(** ** The implied-volatility solver *)

(** What the solver returns on the grid, shared by the results below. *)
Lemma implied_volatility_on_grid
    (fuel : nat) (g : Globals) (P S K T r : R) :
  0 < S -> 0 < K -> 0 < T -> (1000 <= fuel)%nat ->
  (forall sigma, 0 < sigma ->
      branch_model g S K T r sigma
      = Ok (Option_Price_implied g S K T r sigma))
  /\
  (forall k,
      (1 <= k <= 999)%nat ->
      P - Option_Price_implied g S K T r (grid k) < 0.001 ->
      (forall j, (1 <= j < k)%nat ->
                 ~ P - Option_Price_implied g S K T r (grid j) < 0.001) ->
      implied_volatility fuel g P S K T r = Some (Ok (PyFloat (grid k))))
  /\
  ((forall k, (1 <= k <= 999)%nat ->
              ~ P - Option_Price_implied g S K T r (grid k) < 0.001) ->
   implied_volatility fuel g P S K T r = Some (Ok (PyStr (not_found g)))).
Proof.
  intros HS HK HT Hfuel.
  assert (Hok : forall sigma, 0 < sigma ->
            branch_model g S K T r sigma
            = Ok (Option_Price_implied g S K T r sigma))
    by (intros; now apply branch_model_ok).
  rewrite implied_volatility_branch. split; [exact Hok | split].
  - intros k Hk Hhit Hfirst.
    destruct k as [ | k]; [lia | ].
    destruct (scan_first_hit _ _ (not_found g) P Hok k fuel 0.001)
      as [j [Hj [Hscan [Hhitj Hbefore]]]].
    + lia.
    + lra.
    + rewrite grid_from_first. apply grid_lt_1. lia.
    + unfold hit. rewrite grid_from_first. exact Hhit.
    + rewrite Hscan, grid_from_first.
      destruct (Nat.eq_dec j k) as [-> | Hne]; [reflexivity | ].
      exfalso. apply (Hfirst (Datatypes.S j)); [lia | ].
      unfold hit in Hhitj. rewrite grid_from_first in Hhitj. exact Hhitj.
  - intros Hnone.
    apply (scan_no_hit _ _ (not_found g) P Hok 999).
    + lia.
    + lra.
    + rewrite grid_from_first, grid_1000. lra.
    + intros i Hi _. unfold hit. rewrite grid_from_first.
      apply Hnone. lia.
Qed.


(** C2.  For S, K, T > 0 and enough fuel for the loop (1000 rounds), the
    solver scans sigma = 0.001, 0.002, ..., 0.999 against the model price
    of its branch ([Option_Price_implied], the number the branch computes
    at each sigma > 0): it returns the first grid volatility at which
    Option_Price - model price < 0.001, and the not-found message when
    the test fails on the whole grid, that is once sigma has reached 1. *)
Theorem C2_forward_linear_scan
    (fuel : nat) (g : Globals) (P S K T r : R) :
  0 < S -> 0 < K -> 0 < T -> (1000 <= fuel)%nat ->
  (forall sigma, 0 < sigma ->
      branch_model g S K T r sigma
      = Ok (Option_Price_implied g S K T r sigma))
  /\
  (forall k,
      (1 <= k <= 999)%nat ->
      P - Option_Price_implied g S K T r (grid k) < 0.001 ->
      (forall j, (1 <= j < k)%nat ->
                 ~ P - Option_Price_implied g S K T r (grid j) < 0.001) ->
      implied_volatility fuel g P S K T r = Some (Ok (PyFloat (grid k))))
  /\
  ((forall k, (1 <= k <= 999)%nat ->
              ~ P - Option_Price_implied g S K T r (grid k) < 0.001) ->
   implied_volatility fuel g P S K T r = Some (Ok (PyStr (not_found g)))).
Proof. apply implied_volatility_on_grid. Qed.

(** At S = 2, K = 1, T = 2, r = 0 the call branch prices at least 1/2
    and the put branch at most 1/4 on the whole grid. *)
Lemma call_price_val_2_1_2 (sigma : R) :
  0 < sigma ->
  call_price_val 2 1 2 0 sigma = 3 * norm.cdf (sigma / 2) - 1.
Proof.
  intros Hs. unfold call_price_val, d1_val, d2_val.
  replace (2 / 2) with 1 by lra. rewrite ln_1, sqrt_1.
  replace ((0 + (0 + sigma ^ 2 / 2) * 1) / (sigma * 1)) with (sigma / 2)
    by (field; lra).
  replace ((0 + (0 - sigma ^ 2 / 2) * 1) / (sigma * 1)) with (- (sigma / 2))
    by (field; lra).
  rewrite cdf_opp.
  replace (- 0 * 2) with 0 by ring. rewrite exp_0. ring.
Qed.

Lemma pdf_0_lt_half : norm.pdf 0 < 1 / 2.
Proof.
  unfold norm.pdf. replace (- (0 * 0) / 2) with 0 by lra. rewrite exp_0.
  assert (H2 : 2 < sqrt (2 * PI)).
  { assert (H4 : sqrt 4 < sqrt (2 * PI))
      by (apply sqrt_lt_1; generalize PI2_1; lra).
    now rewrite sqrt_4 in H4. }
  apply Rmult_lt_reg_r with (sqrt (2 * PI)); [lra | ].
  unfold Rdiv at 1. rewrite Rmult_assoc, Rinv_l by lra. lra.
Qed.

Lemma cdf_upper_near_0 (x : R) : 0 <= x -> norm.cdf x <= 1 / 2 + x / 2.
Proof.
  intros Hx.
  generalize (cdf_increment_upper 0 x Hx) pdf_0_lt_half.
  rewrite cdf_0. nra.
Qed.

Lemma cdf_lower_pos (x : R) : 0 <= x -> 1 / 2 <= norm.cdf x.
Proof.
  intros Hx. rewrite <- cdf_0. now apply cdf_monotone.
Qed.


(** A local name that the frame binds to a float is read as that float,
    whatever the module namespace binds. *)
Lemma load_float_local (frame globals : Namespace) (x : string) (a : R) :
  is_local x = true -> frame x = Some (PyFloat a) ->
  load_float frame globals x = Value a.
Proof.
  intros Hloc Hx. unfold load_float, load. now rewrite Hloc, Hx.
Qed.

Lemma frame_binds_step (frame : Namespace) (P S K T r sigma i s : R) :
  frame_binds frame P S K T r sigma ->
  frame_binds
    (assign "sigma" (PyFloat s)
       (assign "Option_Price_implied" (PyFloat i) frame)) P S K T r s.
Proof.
  intros [HP [HS [HK [HT [Hr Hs]]]]]. unfold frame_binds.
  cbn [assign String.eqb Ascii.eqb Bool.eqb]. repeat split; assumption.
Qed.

(** With the names resolved, the loop on a frame is the loop on the
    numbers the frame binds: the module namespace is not read. *)
Lemma scan_frame_is_scan (model : R -> R -> R -> R -> R -> py R)
    (msg : string) (globals : Namespace) (P S K T r : R) (fuel : nat) :
  forall (frame : Namespace) (sigma : R),
    frame_binds frame P S K T r sigma ->
    scan_frame fuel model msg globals frame
    = as_outcome (scan fuel (model S K T r) msg P sigma).
Proof.
  induction fuel as [ | fuel IH]; intros frame sigma Hb; [reflexivity | ].
  assert (Hb' := Hb). destruct Hb' as [HP [HS [HK [HT [Hr Hs]]]]].
  cbn [scan_frame scan].
  rewrite (load_float_local frame globals "sigma" sigma) by auto.
  destruct (Rlt_dec sigma 1); [ | reflexivity ].
  unfold model_in_frame.
  rewrite (load_float_local frame globals "S" S),
    (load_float_local frame globals "K" K),
    (load_float_local frame globals "T" T),
    (load_float_local frame globals "r" r),
    (load_float_local frame globals "sigma" sigma) by auto.
  cbn [obind].
  destruct (model S K T r sigma) as [implied | e]; [ | reflexivity ].
  rewrite (load_float_local _ globals "Option_Price" P) by auto.
  rewrite (load_float_local _ globals "Option_Price_implied" implied) by auto.
  cbn [obind].
  destruct (Rlt_dec (P - implied) 0.001).
  - unfold load. cbn [is_local implied_volatility_locals existsb orb
      assign String.eqb Ascii.eqb Bool.eqb]. now rewrite Hs.
  - rewrite (load_float_local _ globals "sigma" sigma) by auto.
    apply IH. now apply (frame_binds_step frame P S K T r sigma).
Qed.

Lemma initial_frame_binds (P S K T r : R) :
  frame_binds (initial_frame P S K T r) P S K T r 0.001.
Proof. repeat split. Qed.

(** A call in a module namespace that binds [option] to the string of
    [g] returns what [implied_volatility] returns on [g]. *)
Lemma implied_volatility_in_module (fuel : nat) (globals : Namespace)
    (g : Globals) (P S K T r : R) :
  globals "option"%string = Some (PyStr (g_option g)) ->
  implied_volatility_in fuel globals P S K T r
  = as_outcome (implied_volatility fuel g P S K T r).
Proof.
  intros Hopt. unfold implied_volatility_in, implied_volatility, load.
  cbn [is_local implied_volatility_locals existsb orb
       String.eqb Ascii.eqb Bool.eqb].
  rewrite Hopt. cbn [equals_C].
  destruct (String.eqb (g_option g) "C");
    apply scan_frame_is_scan, initial_frame_binds.
Qed.

Lemma implied_volatility_in_frame (fuel : nat)
    (globals1 globals2 : Namespace) (P S K T r : R) :
  globals1 "option"%string = globals2 "option"%string ->
  implied_volatility_in fuel globals1 P S K T r
  = implied_volatility_in fuel globals2 P S K T r.
Proof.
  intros Hopt. unfold implied_volatility_in, load.
  cbn [is_local implied_volatility_locals existsb orb
       String.eqb Ascii.eqb Bool.eqb].
  rewrite Hopt.
  destruct (globals2 "option"%string) as [opt | ]; [ | reflexivity ].
  destruct (equals_C opt);
    rewrite !(scan_frame_is_scan _ _ _ P S K T r fuel _ 0.001)
      by apply initial_frame_binds; reflexivity.
Qed.



(** C10.  For S, K, T > 0: at every sigma > 0 the put branch's model
    price K*exp(-r*T) - S + call_price is the number [put_price] returns,
    and the put branch of the solver is the scan against [put_price]. *)
Theorem C10_put_branch_is_put_price (S K T r : R) :
  0 < S -> 0 < K -> 0 < T ->
  (forall sigma, 0 < sigma ->
     exists c p,
       call_price S K T r sigma = Ok c /\
       put_price S K T r sigma = Ok p /\
       K * exp (- r * T) - S + c = p)
  /\
  (forall fuel g P,
     is_call g = false ->
     implied_volatility fuel g P S K T r
     = scan fuel (put_price S K T r) msg_put P 0.001).
Proof.
  intros HS HK HT. split.
  - intros sigma Hs.
    exists (call_price_val S K T r sigma), (put_price_val S K T r sigma).
    split; [apply call_price_ok; lra | ].
    split; [apply put_price_ok; lra | ].
    generalize (parity_val S K T r sigma). lra.
  - intros fuel g P Hg.
    rewrite implied_volatility_branch. unfold branch_model, not_found.
    rewrite Hg. apply scan_ext; [ | lra ].
    intros sigma Hs. unfold put_model.
    rewrite call_price_ok, put_price_ok by lra. cbn [bind]. f_equal.
    generalize (parity_val S K T r sigma). lra.
Qed.

Lemma C10_put_branch_is_put_price_witness :
  (forall sigma, 0 < sigma ->
     exists c p,
       call_price 100 100 0.5 0.05 sigma = Ok c /\
       put_price 100 100 0.5 0.05 sigma = Ok p /\
       100 * exp (- (0.05) * 0.5) - 100 + c = p)
  /\
  (forall fuel g P,
     is_call g = false ->
     implied_volatility fuel g P 100 100 0.5 0.05
     = scan fuel (put_price 100 100 0.5 0.05) msg_put P 0.001).
Proof. apply (C10_put_branch_is_put_price 100 100 0.5 0.05); lra. Defined.

(** At S = K = T = 1, r = 0 the call branch prices 2*Phi(sigma/2) - 1. *)
Lemma call_price_val_1_1_1 (sigma : R) :
  0 < sigma ->
  call_price_val 1 1 1 0 sigma = 2 * norm.cdf (sigma / 2) - 1.
Proof.
  intros Hs. unfold call_price_val, d1_val, d2_val.
  replace (1 / 1) with 1 by lra. rewrite ln_1, sqrt_1.
  replace ((0 + (0 + sigma ^ 2 / 2) * 1) / (sigma * 1)) with (sigma / 2)
    by (field; lra).
  replace ((0 + (0 - sigma ^ 2 / 2) * 1) / (sigma * 1)) with (- (sigma / 2))
    by (field; lra).
  rewrite cdf_opp.
  replace (- 0 * 1) with 0 by ring. rewrite exp_0. ring.
Qed.

Lemma grid_value (k : nat) : grid k = IZR (Z.of_nat k) / 1000.
Proof. unfold grid. rewrite INR_IZR_INZ. lra. Qed.

Lemma grid_le (j k : nat) : (j <= k)%nat -> grid j <= grid k.
Proof. intros Hjk. unfold grid. apply le_INR in Hjk. lra. Qed.

(** The round trip on the grid, shared by the results below. *)
Lemma round_trip_on_grid
    (fuel : nat) (g : Globals) (S K T r : R) (k0 : nat) :
  0 < S -> 0 < K -> 0 < T -> (1000 <= fuel)%nat -> (1 <= k0 <= 999)%nat ->
  exists p k,
    generated_price g S K T r (grid k0) = Ok p /\
    (1 <= k <= k0)%nat /\
    implied_volatility fuel g p S K T r = Some (Ok (PyFloat (grid k))) /\
    p - Option_Price_implied g S K T r (grid k) < 0.001 /\
    (forall j, (1 <= j < k)%nat ->
               ~ p - Option_Price_implied g S K T r (grid j) < 0.001).
Proof.
  intros HS HK HT Hfuel Hk0.
  assert (Hg0 : 0 < grid k0) by (apply grid_pos; lia).
  exists (Option_Price_implied g S K T r (grid k0)).
  assert (Hgen : generated_price g S K T r (grid k0)
                 = Ok (Option_Price_implied g S K T r (grid k0))).
  { unfold generated_price, Option_Price_implied. destruct (is_call g).
    - apply call_price_ok; lra.
    - rewrite put_price_ok by lra. f_equal.
      generalize (parity_val S K T r (grid k0)). lra. }
  assert (Hok : forall sigma, 0 < sigma ->
            branch_model g S K T r sigma
            = Ok (Option_Price_implied g S K T r sigma))
    by (intros; now apply branch_model_ok).
  destruct k0 as [ | k0]; [lia | ].
  destruct (scan_first_hit _ _ (not_found g)
              (Option_Price_implied g S K T r (grid (Datatypes.S k0)))
              Hok k0 fuel 0.001)
    as [j [Hj [Hscan [Hhitj Hbefore]]]].
  - lia.
  - lra.
  - rewrite grid_from_first. apply grid_lt_1. lia.
  - unfold hit. rewrite grid_from_first. lra.
  - exists (Datatypes.S j). unfold hit in Hhitj, Hbefore.
    rewrite grid_from_first in Hscan, Hhitj.
    rewrite implied_volatility_branch.
    repeat split; auto; try lia.
    intros [ | i] Hi; [lia | ].
    rewrite <- (grid_from_first i). apply Hbefore. lia.
Qed.

(** C6 (as stated, refuted).  At S = K = T = 1, r = 0 the call priced at
    sigma0 = 0.5 is inverted to a volatility of at most 0.498, more than
    1e-3 away from sigma0. *)
Lemma C6_round_trip_misses_tolerance :
  exists p sigma,
    call_price 1 1 1 0 0.5 = Ok p /\
    implied_volatility 1000 (notebook_globals "C") p 1 1 1 0
    = Some (Ok (PyFloat sigma)) /\
    0.001 < Rabs (sigma - 0.5).
Proof.
  assert (Hok : forall sigma, 0 < sigma ->
            branch_model (notebook_globals "C") 1 1 1 0 sigma
            = Ok (Option_Price_implied (notebook_globals "C") 1 1 1 0 sigma))
    by (intros; apply branch_model_ok; lra).
  destruct (scan_first_hit _ _ (not_found (notebook_globals "C"))
              (call_price_val 1 1 1 0 0.5) Hok 497 1000 0.001)
    as [j [Hj [Hscan _]]].
  - lia.
  - lra.
  - rewrite grid_from_first. apply grid_lt_1. lia.
  - unfold hit. rewrite grid_from_first.
    unfold Option_Price_implied.
    cbn [is_call notebook_globals g_option String.eqb Ascii.eqb Bool.eqb].
    assert (Hg : grid 498 = 0.498) by (rewrite grid_value; simpl; lra).
    rewrite Hg, !call_price_val_1_1_1 by lra.
    generalize (cdf_increment_upper (0.498 / 2) (0.5 / 2)) pdf_0_lt_half.
    intros Hup Hhalf. lapply Hup; [ | lra ]. nra.
  - exists (call_price_val 1 1 1 0 0.5), (grid (Datatypes.S j)).
    split; [apply call_price_ok; lra | ].
    rewrite implied_volatility_branch, Hscan, grid_from_first.
    split; [reflexivity | ].
    assert (Hle : grid (Datatypes.S j) <= 0.498).
    { assert (Hg : grid 498 = 0.498) by (rewrite grid_value; simpl; lra).
      rewrite <- Hg. apply grid_le. lia. }
    rewrite Rabs_left by lra. lra.
Qed.

(** C6 (amended).  For S, K, T > 0 and sigma0 on the grid below 1, the
    solver applied to the price generated at sigma0 (same option type)
    never answers with the not-found message: it returns the first grid
    volatility whose model price exceeds that price less 0.001, and this
    volatility is at most sigma0. *)
Theorem C6_round_trip_returns_earlier_grid_point
    (fuel : nat) (g : Globals) (S K T r : R) (k0 : nat) :
  0 < S -> 0 < K -> 0 < T -> (1000 <= fuel)%nat -> (1 <= k0 <= 999)%nat ->
  exists p k,
    generated_price g S K T r (grid k0) = Ok p /\
    (1 <= k <= k0)%nat /\
    implied_volatility fuel g p S K T r = Some (Ok (PyFloat (grid k))) /\
    p - Option_Price_implied g S K T r (grid k) < 0.001 /\
    (forall j, (1 <= j < k)%nat ->
               ~ p - Option_Price_implied g S K T r (grid j) < 0.001).
Proof. apply round_trip_on_grid. Qed.

Lemma C6_round_trip_returns_earlier_grid_point_witness :
  exists p k,
    generated_price (notebook_globals "P") 100 100 0.5 0.05 (grid 200) = Ok p /\
    (1 <= k <= 200)%nat /\
    implied_volatility 1000 (notebook_globals "P") p 100 100 0.5 0.05
    = Some (Ok (PyFloat (grid k))) /\
    p - Option_Price_implied (notebook_globals "P") 100 100 0.5 0.05 (grid k)
      < 0.001 /\
    (forall j, (1 <= j < k)%nat ->
       ~ p - Option_Price_implied (notebook_globals "P") 100 100 0.5 0.05 (grid j)
           < 0.001).
Proof.
  apply (C6_round_trip_returns_earlier_grid_point
           1000 (notebook_globals "P") 100 100 0.5 0.05 200); try lra; lia.
Defined.

Lemma C2_forward_linear_scan_witness :
  (forall sigma, 0 < sigma ->
      branch_model (notebook_globals "P") 100 100 0.5 0.2 sigma
      = Ok (Option_Price_implied (notebook_globals "P") 100 100 0.5 0.2 sigma))
  /\
  (forall k,
      (1 <= k <= 999)%nat ->
      8 - Option_Price_implied (notebook_globals "P") 100 100 0.5 0.2 (grid k)
        < 0.001 ->
      (forall j, (1 <= j < k)%nat ->
         ~ 8 - Option_Price_implied (notebook_globals "P") 100 100 0.5 0.2 (grid j)
             < 0.001) ->
      implied_volatility 1000 (notebook_globals "P") 8 100 100 0.5 0.2
      = Some (Ok (PyFloat (grid k))))
  /\
  ((forall k, (1 <= k <= 999)%nat ->
      ~ 8 - Option_Price_implied (notebook_globals "P") 100 100 0.5 0.2 (grid k)
          < 0.001) ->
   implied_volatility 1000 (notebook_globals "P") 8 100 100 0.5 0.2
   = Some (Ok (PyStr (not_found (notebook_globals "P"))))).
Proof.
  apply (C2_forward_linear_scan 1000 (notebook_globals "P") 8 100 100 0.5 0.2);
    try lra; lia.
Defined.

(** ** Prices as a function of the volatility *)

Lemma ln_2_bounds : 1 / 2 < ln 2 < 1.
Proof.
  split.
  - assert (H : ln (exp (1 / 2)) < ln 2).
    { apply ln_increasing; [apply exp_pos | ].
      assert (Hsq : exp (1 / 2) * exp (1 / 2) = exp 1).
      { rewrite <- exp_plus. f_equal. lra. }
      generalize exp_le_3 (exp_pos (1 / 2)). nra. }
    now rewrite ln_exp in H.
  - assert (H : ln 2 < ln (exp 1)).
    { apply ln_increasing; [lra | ]. generalize (exp_ineq1 1). lra. }
    now rewrite ln_exp in H.
Qed.

Lemma sqrt_100 : sqrt 100 = 10.
Proof. replace 100 with (10 * 10) by ring. apply sqrt_square. lra. Qed.

Lemma pdf_as_mode (x : R) : norm.pdf x = exp (- (x * x) / 2) * norm.pdf 0.
Proof.
  unfold norm.pdf. replace (- (0 * 0) / 2) with 0 by lra. rewrite exp_0.
  unfold Rdiv. ring.
Qed.

Lemma pdf_0_pos : 0 < norm.pdf 0.
Proof. apply pdf_pos. Qed.

Lemma exp_3_le_27 : exp 3 <= 27.
Proof.
  replace 3 with (1 + (1 + 1)) by ring. rewrite !exp_plus.
  generalize exp_le_3 (exp_pos 1). nra.
Qed.

(** The density at 9/4 is at least a 27th of its mode. *)
Lemma pdf_9_4_lower : norm.pdf 0 / 27 <= norm.pdf (9 / 4).
Proof.
  rewrite (pdf_as_mode (9 / 4)).
  assert (He : / 27 <= exp (- (9 / 4 * (9 / 4)) / 2)).
  { apply Rle_trans with (exp (Ropp 3)).
    - rewrite exp_Ropp. apply Rinv_le_contravar; [apply exp_pos | ].
      apply exp_3_le_27.
    - left. apply exp_increasing. lra. }
  generalize pdf_0_pos. nra.
Qed.

(** The values [d1] and [d2] return at S = 0.5, K = 100, T = 1, r = 0. *)
Lemma d1_val_half_100_1 (sigma : R) :
  sigma <> 0 ->
  d1_val 0.5 100 1 0 sigma = (- ln 2 + 50 * sigma ^ 2) / (10 * sigma).
Proof.
  intros Hs. unfold d1_val.
  replace (0.5 / 1) with (/ 2) by lra.
  rewrite ln_Rinv, sqrt_100 by lra. field. assumption.
Qed.

Lemma d2_val_half_100_1 (sigma : R) :
  sigma <> 0 ->
  d2_val 0.5 100 1 0 sigma = (- ln 2 - 50 * sigma ^ 2) / (10 * sigma).
Proof.
  intros Hs. unfold d2_val.
  replace (0.5 / 1) with (/ 2) by lra.
  rewrite ln_Rinv, sqrt_100 by lra. field. assumption.
Qed.

(** C5 (code defect).  At S = 0.5, K = 100, T = 1, r = 0 the notebook's
    call price and put price are both strictly smaller at sigma = 0.1
    than at sigma = 0.05: with the strike and the maturity transposed in
    [d1] and [d2], the prices are not increasing in sigma. *)
Theorem C5_prices_decrease_in_sigma :
  exists c1 c2 p1 p2,
    call_price 0.5 100 1 0 0.05 = Ok c1 /\
    call_price 0.5 100 1 0 0.1 = Ok c2 /\
    put_price 0.5 100 1 0 0.05 = Ok p1 /\
    put_price 0.5 100 1 0 0.1 = Ok p2 /\
    c2 < c1 /\ p2 < p1.
Proof.
  exists (call_price_val 0.5 100 1 0 0.05), (call_price_val 0.5 100 1 0 0.1),
         (put_price_val 0.5 100 1 0 0.05), (put_price_val 0.5 100 1 0 0.1).
  split; [apply call_price_ok; lra | ].
  split; [apply call_price_ok; lra | ].
  split; [apply put_price_ok; lra | ].
  split; [apply put_price_ok; lra | ].
  assert (Hcall : call_price_val 0.5 100 1 0 0.1 < call_price_val 0.5 100 1 0 0.05).
  { unfold call_price_val.
    rewrite !d1_val_half_100_1, !d2_val_half_100_1 by lra.
    replace (- 0 * 1) with 0 by ring. rewrite exp_0.
    destruct ln_2_bounds as [Hlo Hhi].
    replace ((- ln 2 + 50 * 0.1 ^ 2) / (10 * 0.1)) with (- ln 2 + 0.5) by lra.
    replace ((- ln 2 - 50 * 0.1 ^ 2) / (10 * 0.1)) with (- ln 2 - 0.5) by lra.
    replace ((- ln 2 + 50 * 0.05 ^ 2) / (10 * 0.05))
      with (- 2 * ln 2 + 0.25) by lra.
    replace ((- ln 2 - 50 * 0.05 ^ 2) / (10 * 0.05))
      with (- 2 * ln 2 - 0.25) by lra.
    assert (Hup := cdf_increment_upper (- 2 * ln 2 + 0.25) (- ln 2 + 0.5)).
    assert (Hdn := cdf_increment_lower
                     (- 2 * ln 2 - 0.25) (- ln 2 - 0.5) (9 / 4)).
    lapply Hup; [ clear Hup; intros Hup | lra ].
    lapply Hdn; [ clear Hdn; intros Hdn | lra ].
    lapply Hdn; [ clear Hdn; intros Hdn | lra ].
    lapply Hdn; [ clear Hdn; intros Hdn | lra ].
    generalize pdf_9_4_lower pdf_0_pos. intros HB H0.
    assert (H1 : norm.pdf 0 * (- ln 2 + 0.5 - (- 2 * ln 2 + 0.25))
                 <= norm.pdf 0 * (5 / 4)).
    { apply Rmult_le_compat_l; lra. }
    assert (H2 : norm.pdf (9 / 4) * (1 / 4)
                 <= norm.pdf (9 / 4) * (- ln 2 - 0.5 - (- 2 * ln 2 - 0.25))).
    { apply Rmult_le_compat_l; lra. }
    lra. }
  split; [exact Hcall | ].
  generalize (parity_val 0.5 100 1 0 0.05) (parity_val 0.5 100 1 0 0.1). lra.
Qed.

(** ** Further properties of [d1], [d2] and the prices *)

Lemma d1_maturity_zero (S K r sigma : R) :
  d1 S K 0 r sigma = Raise ZeroDivisionError.
Proof. unfold d1. now rewrite py_div_zero. Qed.

Lemma d2_maturity_zero (S K r sigma : R) :
  d2 S K 0 r sigma = Raise ZeroDivisionError.
Proof. unfold d2. now rewrite py_div_zero. Qed.

Lemma ratio_nonpos (S T : R) : S * T <= 0 -> T <> 0 -> S / T <= 0.
Proof.
  intros Hst HT.
  assert (Hsq : 0 < T * T) by nra.
  replace (S / T) with (S * T * / (T * T)) by (field; assumption).
  assert (Hinv : 0 < / (T * T)) by now apply Rinv_0_lt_compat.
  nra.
Qed.

(** [math.log] refuses the quotient when its sign is not positive. *)
Lemma d1_log_raises (S K T r sigma : R) :
  S * T <= 0 -> T <> 0 -> d1 S K T r sigma = Raise ValueError.
Proof.
  intros Hst HT. unfold d1. rewrite py_div_ok by assumption. cbn [bind].
  now rewrite log_raises by now apply ratio_nonpos.
Qed.

Lemma d2_log_raises (S K T r sigma : R) :
  S * T <= 0 -> T <> 0 -> d2 S K T r sigma = Raise ValueError.
Proof.
  intros Hst HT. unfold d2. rewrite py_div_ok by assumption. cbn [bind].
  now rewrite log_raises by now apply ratio_nonpos.
Qed.

Lemma d1_sigma_zero (S K T r : R) :
  0 < S -> 0 <= K -> 0 < T -> d1 S K T r 0 = Raise ZeroDivisionError.
Proof.
  intros HS HK HT. unfold d1. rewrite py_div_ok by lra. cbn [bind].
  rewrite log_ok by (apply Rdiv_lt_0_compat; assumption). cbn [bind].
  rewrite sqrt_ok by lra. cbn [bind].
  now rewrite (Rmult_0_l (sqrt K)), py_div_zero.
Qed.

Lemma d2_sigma_zero (S K T r : R) :
  0 < S -> 0 <= K -> 0 < T -> d2 S K T r 0 = Raise ZeroDivisionError.
Proof.
  intros HS HK HT. unfold d2. rewrite py_div_ok by lra. cbn [bind].
  rewrite log_ok by (apply Rdiv_lt_0_compat; assumption). cbn [bind].
  rewrite sqrt_ok by lra. cbn [bind].
  now rewrite (Rmult_0_l (sqrt K)), py_div_zero.
Qed.

Lemma d1_strike_zero (S T r sigma : R) :
  0 < S -> 0 < T -> d1 S 0 T r sigma = Raise ZeroDivisionError.
Proof.
  intros HS HT. unfold d1. rewrite py_div_ok by lra. cbn [bind].
  rewrite log_ok by (apply Rdiv_lt_0_compat; assumption). cbn [bind].
  rewrite sqrt_ok by lra. cbn [bind].
  now rewrite sqrt_0, (Rmult_0_r sigma), py_div_zero.
Qed.

Lemma d2_strike_zero (S T r sigma : R) :
  0 < S -> 0 < T -> d2 S 0 T r sigma = Raise ZeroDivisionError.
Proof.
  intros HS HT. unfold d2. rewrite py_div_ok by lra. cbn [bind].
  rewrite log_ok by (apply Rdiv_lt_0_compat; assumption). cbn [bind].
  rewrite sqrt_ok by lra. cbn [bind].
  now rewrite sqrt_0, (Rmult_0_r sigma), py_div_zero.
Qed.

Lemma sqrt_raises (x : R) : x < 0 -> math.sqrt x = Raise ValueError.
Proof.
  intros Hx. unfold math.sqrt. destruct (Rle_dec 0 x); [lra | reflexivity].
Qed.

Lemma d1_strike_negative (S K T r sigma : R) :
  0 < S -> K < 0 -> 0 < T -> d1 S K T r sigma = Raise ValueError.
Proof.
  intros HS HK HT. unfold d1. rewrite py_div_ok by lra. cbn [bind].
  rewrite log_ok by (apply Rdiv_lt_0_compat; assumption). cbn [bind].
  now rewrite sqrt_raises.
Qed.

Lemma d2_strike_negative (S K T r sigma : R) :
  0 < S -> K < 0 -> 0 < T -> d2 S K T r sigma = Raise ValueError.
Proof.
  intros HS HK HT. unfold d2. rewrite py_div_ok by lra. cbn [bind].
  rewrite log_ok by (apply Rdiv_lt_0_compat; assumption). cbn [bind].
  now rewrite sqrt_raises.
Qed.

(** X1.  For S, K, T > 0 and sigma <> 0, the values [a] and [b] that the
    calls [d1(S,K,T,r,sigma)] and [d2(S,K,T,r,sigma)] return differ by
    sigma times the square root of the strike K: a - b = sigma*sqrt(K). *)
Theorem X1_d1_minus_d2_uses_strike (S K T r sigma : R) :
  0 < S -> 0 < K -> 0 < T -> sigma <> 0 ->
  exists a b,
    d1 S K T r sigma = Ok a /\
    d2 S K T r sigma = Ok b /\
    a - b = sigma * sqrt K.
Proof.
  intros HS HK HT Hs.
  exists (d1_val S K T r sigma), (d2_val S K T r sigma).
  split; [now apply d1_ok | ]. split; [now apply d2_ok | ].
  rewrite d2_val_d1_val by assumption. ring.
Qed.

Lemma X1_d1_minus_d2_uses_strike_witness :
  exists a b,
    d1 100 4 0.5 0.05 0.2 = Ok a /\
    d2 100 4 0.5 0.05 0.2 = Ok b /\
    a - b = 0.2 * sqrt 4.
Proof. apply (X1_d1_minus_d2_uses_strike 100 4 0.5 0.05 0.2); lra. Defined.

(** X2.  When the strike and the maturity are the same number, the
    transposition does not show: for S, K, sigma > 0, [call_price] and
    [put_price] at T = K return the prices of the specification. *)
Theorem X2_prices_agree_when_strike_is_maturity (S K r sigma : R) :
  0 < S -> 0 < K -> 0 < sigma ->
  call_price S K K r sigma = Ok (Spec.call_price S K K r sigma) /\
  put_price S K K r sigma = Ok (Spec.put_price S K K r sigma).
Proof.
  intros HS HK Hs.
  assert (Hd1 : d1_val S K K r sigma = Spec.d1 S K K r sigma) by reflexivity.
  assert (Hd2 : d2_val S K K r sigma = Spec.d2 S K K r sigma).
  { unfold Spec.d2. rewrite <- Hd1. apply d2_val_d1_val; lra. }
  rewrite call_price_ok, put_price_ok by lra.
  unfold call_price_val, put_price_val, Spec.call_price, Spec.put_price.
  now rewrite Hd1, Hd2.
Qed.

Lemma X2_prices_agree_when_strike_is_maturity_witness :
  call_price 3 2 2 0.05 0.2 = Ok (Spec.call_price 3 2 2 0.05 0.2) /\
  put_price 3 2 2 0.05 0.2 = Ok (Spec.put_price 3 2 2 0.05 0.2).
Proof.
  apply (X2_prices_agree_when_strike_is_maturity 3 2 0.05 0.2); lra.
Defined.

(** X3.  A negative volatility turns one price into the other with the
    sign changed: for S, K, T, sigma > 0, [call_price] at -sigma returns
    minus what [put_price] returns at sigma, and [put_price] at -sigma
    minus what [call_price] returns at sigma. *)
Theorem X3_negative_sigma_swaps_prices (S K T r sigma : R) :
  0 < S -> 0 < K -> 0 < T -> 0 < sigma ->
  exists c p,
    call_price S K T r sigma = Ok c /\
    put_price S K T r sigma = Ok p /\
    call_price S K T r (- sigma) = Ok (- p) /\
    put_price S K T r (- sigma) = Ok (- c).
Proof.
  intros HS HK HT Hs.
  exists (call_price_val S K T r sigma), (put_price_val S K T r sigma).
  rewrite !call_price_ok, !put_price_ok by lra.
  assert (Hd1 : d1_val S K T r (- sigma) = - d1_val S K T r sigma).
  { unfold d1_val. field. split; [apply Rgt_not_eq, sqrt_lt_R0 | ]; lra. }
  assert (Hd2 : d2_val S K T r (- sigma) = - d2_val S K T r sigma).
  { unfold d2_val. field. split; [apply Rgt_not_eq, sqrt_lt_R0 | ]; lra. }
  repeat split; f_equal; unfold call_price_val, put_price_val;
    rewrite Hd1, Hd2, ?Ropp_involutive; ring.
Qed.

Lemma X3_negative_sigma_swaps_prices_witness :
  exists c p,
    call_price 100 100 0.5 0.05 0.2 = Ok c /\
    put_price 100 100 0.5 0.05 0.2 = Ok p /\
    call_price 100 100 0.5 0.05 (- (0.2)) = Ok (- p) /\
    put_price 100 100 0.5 0.05 (- (0.2)) = Ok (- c).
Proof. apply (X3_negative_sigma_swaps_prices 100 100 0.5 0.05 0.2); lra. Defined.

(** X4.  Outside the positive spots and strikes, with T > 0: a spot
    S <= 0 makes both prices raise [ValueError]; with S > 0 a negative
    strike makes them raise [ValueError] and a zero strike
    [ZeroDivisionError]. *)
Theorem X4_prices_on_bad_spot_or_strike (S K T r sigma : R) :
  0 < T ->
  (S <= 0 ->
     call_price S K T r sigma = Raise ValueError /\
     put_price S K T r sigma = Raise ValueError) /\
  (0 < S -> K < 0 ->
     call_price S K T r sigma = Raise ValueError /\
     put_price S K T r sigma = Raise ValueError) /\
  (0 < S -> K = 0 ->
     call_price S K T r sigma = Raise ZeroDivisionError /\
     put_price S K T r sigma = Raise ZeroDivisionError).
Proof.
  intros HT. split; [ | split ].
  - intros HS. unfold call_price, put_price.
    rewrite d1_log_raises, d2_log_raises by nra. split; reflexivity.
  - intros HS HK. unfold call_price, put_price.
    rewrite d1_strike_negative, d2_strike_negative by assumption.
    split; reflexivity.
  - intros HS ->. unfold call_price, put_price.
    rewrite d1_strike_zero, d2_strike_zero by assumption.
    split; reflexivity.
Qed.

Lemma X4_prices_on_bad_spot_or_strike_witness :
  call_price 100 (-5) 0.5 0.05 0.2 = Raise ValueError /\
  put_price 100 (-5) 0.5 0.05 0.2 = Raise ValueError.
Proof.
  assert (HT : 0 < 0.5) by lra.
  apply (proj1 (proj2 (X4_prices_on_bad_spot_or_strike 100 (-5) 0.5 0.05 0.2 HT)));
    lra.
Defined.

(** ** The Greeks *)

(** X5.  Rho and theta obey the parity of the prices: for S, K, T,
    sigma > 0 all four are returned, call_rho - put_rho is
    0.01*K*T*exp(-r*T) and call_theta - put_theta is
    -0.01*r*K*exp(-r*T). *)
Theorem X5_rho_theta_parity (S K T r sigma : R) :
  0 < S -> 0 < K -> 0 < T -> 0 < sigma ->
  exists crho prho ctheta ptheta,
    call_rho S K T r sigma = Ok crho /\
    put_rho S K T r sigma = Ok prho /\
    call_theta S K T r sigma = Ok ctheta /\
    put_theta S K T r sigma = Ok ptheta /\
    crho - prho = 0.01 * (K * T * exp (- r * T)) /\
    ctheta - ptheta = - (0.01 * (r * K * exp (- r * T))).
Proof.
  intros HS HK HT Hs.
  assert (Hq : 0 < sqrt T) by now apply sqrt_lt_R0.
  unfold call_rho, put_rho, call_theta, put_theta.
  rewrite d1_ok, d2_ok by lra. cbn [bind].
  rewrite sqrt_ok by lra. cbn [bind].
  rewrite py_div_ok by lra. cbn [bind].
  do 4 eexists. repeat (split; [reflexivity | ]).
  rewrite cdf_opp. split; ring.
Qed.

Lemma X5_rho_theta_parity_witness :
  exists crho prho ctheta ptheta,
    call_rho 100 100 0.5 0.05 0.2 = Ok crho /\
    put_rho 100 100 0.5 0.05 0.2 = Ok prho /\
    call_theta 100 100 0.5 0.05 0.2 = Ok ctheta /\
    put_theta 100 100 0.5 0.05 0.2 = Ok ptheta /\
    crho - prho = 0.01 * (100 * 0.5 * exp (- (0.05) * 0.5)) /\
    ctheta - ptheta = - (0.01 * (0.05 * 100 * exp (- (0.05) * 0.5))).
Proof. apply (X5_rho_theta_parity 100 100 0.5 0.05 0.2); lra. Defined.

(** X6.  For S, K, T, sigma > 0 gamma and vega are returned, neither is
    negative, and vega is 0.01 * S^2 * sigma * T times gamma. *)
Theorem X6_gamma_vega_nonnegative_and_related (S K T r sigma : R) :
  0 < S -> 0 < K -> 0 < T -> 0 < sigma ->
  exists gam veg,
    call_gamma S K T r sigma = Ok gam /\
    call_vega S K T r sigma = Ok veg /\
    0 <= gam /\ 0 <= veg /\
    veg = 0.01 * (S * S * sigma * T) * gam.
Proof.
  intros HS HK HT Hs.
  assert (Hq : 0 < sqrt T) by now apply sqrt_lt_R0.
  assert (Hden : 0 < S * sigma * sqrt T)
    by (repeat apply Rmult_lt_0_compat; assumption).
  assert (Hpdf := pdf_pos (d1_val S K T r sigma)).
  unfold call_gamma, call_vega.
  rewrite d1_ok by lra. cbn [bind].
  rewrite sqrt_ok by lra. cbn [bind].
  rewrite py_div_ok by lra.
  do 2 eexists. repeat (split; [reflexivity | ]).
  split; [left; now apply Rdiv_lt_0_compat | ].
  split.
  - left. apply Rmult_lt_0_compat; [lra | ].
    apply Rmult_lt_0_compat; [apply Rmult_lt_0_compat | ]; assumption.
  - assert (HTT : sqrt T * sqrt T = T) by (apply sqrt_sqrt; lra).
    assert (H : S * norm.pdf (d1_val S K T r sigma) * sqrt T
                = S * S * sigma * T
                  * (norm.pdf (d1_val S K T r sigma) / (S * sigma * sqrt T))).
    { generalize (norm.pdf (d1_val S K T r sigma)) (sqrt T) Hq HTT.
      intros d q Hq' <-. field. lra. }
    rewrite H. lra.
Qed.

Lemma X6_gamma_vega_nonnegative_and_related_witness :
  exists gam veg,
    call_gamma 100 100 0.5 0.05 0.2 = Ok gam /\
    call_vega 100 100 0.5 0.05 0.2 = Ok veg /\
    0 <= gam /\ 0 <= veg /\
    veg = 0.01 * (100 * 100 * 0.2 * 0.5) * gam.
Proof.
  apply (X6_gamma_vega_nonnegative_and_related 100 100 0.5 0.05 0.2); lra.
Defined.

(** X7.  The ten Greeks fail like the prices: for S > 0 and K > 0 each of
    them raises [ZeroDivisionError] when T = 0, [ValueError] when T < 0,
    and [ZeroDivisionError] when T > 0 and sigma = 0. *)
Theorem X7_greeks_exceptions (S K T r sigma : R) :
  0 < S -> 0 < K ->
  (T = 0 ->
     Forall (fun f => f S K T r sigma = Raise ZeroDivisionError) greeks) /\
  (T < 0 ->
     Forall (fun f => f S K T r sigma = Raise ValueError) greeks) /\
  (0 < T -> sigma = 0 ->
     Forall (fun f => f S K T r sigma = Raise ZeroDivisionError) greeks).
Proof.
  intros HS HK. split; [ | split ].
  - intros ->. unfold greeks.
    repeat (apply Forall_cons || apply Forall_nil);
      unfold call_delta, call_gamma, call_vega, call_rho, call_theta,
             put_delta, put_gamma, put_vega, put_rho, put_theta;
      rewrite ?d1_maturity_zero, ?d2_maturity_zero; reflexivity.
  - intros HT. unfold greeks.
    repeat (apply Forall_cons || apply Forall_nil);
      unfold call_delta, call_gamma, call_vega, call_rho, call_theta,
             put_delta, put_gamma, put_vega, put_rho, put_theta;
      rewrite ?d1_log_raises, ?d2_log_raises by nra; reflexivity.
  - intros HT ->. unfold greeks.
    repeat (apply Forall_cons || apply Forall_nil);
      unfold call_delta, call_gamma, call_vega, call_rho, call_theta,
             put_delta, put_gamma, put_vega, put_rho, put_theta;
      rewrite ?d1_sigma_zero, ?d2_sigma_zero by lra; reflexivity.
Qed.

Lemma X7_greeks_exceptions_witness :
  Forall (fun f => f 100 100 0 0.05 0.2 = Raise ZeroDivisionError) greeks.
Proof.
  assert (H100 : 0 < 100) by lra.
  exact (proj1 (X7_greeks_exceptions 100 100 0 0.05 0.2 H100 H100) eq_refl).
Defined.

(** ** Further properties of the solver *)

Lemma scan_unfold (fuel : nat) (model : R -> py R) (msg : string)
    (P sigma : R) :
  scan (Datatypes.S fuel) model msg P sigma =
  if Rlt_dec sigma 1 then
    match model sigma with
    | Raise e => Some (Raise e)
    | Ok v =>
        if Rlt_dec (P - v) 0.001 then Some (Ok (PyFloat sigma))
        else scan fuel model msg P (sigma + 0.001)
    end
  else Some (Ok (PyStr msg)).
Proof. reflexivity. Qed.

(** The loop is over after as many rounds as there are steps up to 1. *)
Lemma scan_terminates (model : R -> py R) (msg : string) (P : R) (n : nat) :
  forall sigma,
    1 - sigma <= INR n * 0.001 ->
    scan (Datatypes.S n) model msg P sigma <> None.
Proof.
  induction n as [ | n IH]; intros sigma Hn; rewrite scan_unfold.
  - simpl INR in Hn. destruct (Rlt_dec sigma 1); [lra | discriminate].
  - destruct (Rlt_dec sigma 1); [ | discriminate ].
    destruct (model sigma) as [v | e]; [ | discriminate ].
    destruct (Rlt_dec (P - v) 0.001); [discriminate | ].
    apply IH. rewrite S_INR in Hn. lra.
Qed.

(** A result does not change when more fuel is given. *)
Lemma scan_more_fuel (model : R -> py R) (msg : string) (P : R)
    (fuel : nat) :
  forall (fuel' : nat) (sigma : R) (res : py PyVal),
    (fuel <= fuel')%nat ->
    scan fuel model msg P sigma = Some res ->
    scan fuel' model msg P sigma = Some res.
Proof.
  induction fuel as [ | fuel IH]; intros fuel' sigma res Hle Hres.
  - discriminate Hres.
  - destruct fuel' as [ | fuel']; [lia | ].
    rewrite scan_unfold in *.
    destruct (Rlt_dec sigma 1); [ | exact Hres ].
    destruct (model sigma) as [v | e]; [ | exact Hres ].
    destruct (Rlt_dec (P - v) 0.001); [exact Hres | ].
    apply IH; [lia | exact Hres].
Qed.

(** What a returned volatility tells: it lies a whole number of steps
    after the start, below 1, and the test holds there. *)
Lemma scan_float_inv (model : R -> py R) (msg : string) (P : R)
    (fuel : nat) :
  forall sigma0 sigma,
    scan fuel model msg P sigma0 = Some (Ok (PyFloat sigma)) ->
    exists j v,
      sigma = sigma0 + INR j * 0.001 /\ sigma < 1 /\
      model sigma = Ok v /\ P - v < 0.001.
Proof.
  induction fuel as [ | fuel IH]; intros sigma0 sigma Hres.
  - discriminate Hres.
  - rewrite scan_unfold in Hres.
    destruct (Rlt_dec sigma0 1) as [Hlt | ]; [ | discriminate Hres ].
    destruct (model sigma0) as [v | e] eqn:Hm; [ | discriminate Hres ].
    destruct (Rlt_dec (P - v) 0.001) as [Hhit | ].
    + injection Hres as <-. exists 0%nat, v. simpl INR.
      repeat split; auto. ring.
    + destruct (IH _ _ Hres) as [j [w [Hs [Hlt' [Hm' Hhit']]]]].
      exists (Datatypes.S j), w. rewrite S_INR.
      repeat split; auto. rewrite Hs. ring.
Qed.

Lemma scan_str_inv (model : R -> py R) (msg : string) (P : R)
    (fuel : nat) :
  forall sigma0 m,
    scan fuel model msg P sigma0 = Some (Ok (PyStr m)) -> m = msg.
Proof.
  induction fuel as [ | fuel IH]; intros sigma0 m Hres.
  - discriminate Hres.
  - rewrite scan_unfold in Hres.
    destruct (Rlt_dec sigma0 1); [ | now injection Hres ].
    destruct (model sigma0) as [v | e]; [ | discriminate Hres ].
    destruct (Rlt_dec (P - v) 0.001); [discriminate Hres | ].
    now apply (IH _ _ Hres).
Qed.

Lemma INR_1000 : INR 1000 = 1000.
Proof. rewrite INR_IZR_INZ. reflexivity. Qed.

Lemma grid_index_bound (j : nat) :
  0.001 + INR j * 0.001 < 1 -> (1 <= Datatypes.S j <= 999)%nat.
Proof.
  intros Hlt. split; [lia | ].
  assert (H : (Datatypes.S j < 1000)%nat).
  { apply INR_lt. rewrite S_INR, INR_1000. lra. }
  lia.
Qed.

(** A run of the call branch that returns at the first step. *)
Lemma call_run_first_step (g : Globals) :
  is_call g = true ->
  implied_volatility 1000 g 0.4 2 1 2 0 = Some (Ok (PyFloat (grid 1))).
Proof.
  intros Hcall.
  destruct (implied_volatility_on_grid 1000 g 0.4 2 1 2 0)
    as [_ [Hfound _]]; try lra; [lia | ].
  apply Hfound; [lia | | intros j Hj; lia].
  unfold Option_Price_implied. rewrite Hcall.
  assert (Hg : 0 < grid 1) by (apply grid_pos; lia).
  rewrite call_price_val_2_1_2 by assumption.
  assert (Hc := cdf_lower_pos (grid 1 / 2)).
  lapply Hc; [ | lra ]. lra.
Qed.

(** X8.  The scan always ends: whatever the arguments and the global
    [option], 1000 rounds of the loop give a result (a volatility, the
    message or an exception), and any larger number of rounds gives the
    same one. *)
Theorem X8_solver_terminates
    (fuel : nat) (g : Globals) (P S K T r : R) :
  (1000 <= fuel)%nat ->
  implied_volatility 1000 g P S K T r <> None /\
  implied_volatility fuel g P S K T r = implied_volatility 1000 g P S K T r.
Proof.
  intros Hfuel. rewrite !implied_volatility_branch.
  assert (Hend : scan 1000 (branch_model g S K T r) (not_found g) P 0.001
                 <> None).
  { apply (scan_terminates _ _ _ 999). rewrite INR_IZR_INZ. simpl. lra. }
  split; [exact Hend | ].
  destruct (scan 1000 (branch_model g S K T r) (not_found g) P 0.001)
    as [res | ] eqn:Hres; [ | now elim Hend ].
  now apply (scan_more_fuel _ _ _ 1000).
Qed.

Lemma X8_solver_terminates_witness :
  implied_volatility 1000 (notebook_globals "P") 8 100 100 0 (-3) <> None /\
  implied_volatility 5000 (notebook_globals "P") 8 100 100 0 (-3)
  = implied_volatility 1000 (notebook_globals "P") 8 100 100 0 (-3).
Proof.
  apply (X8_solver_terminates 5000 (notebook_globals "P") 8 100 100 0 (-3)).
  lia.
Defined.

(** X9.  Whatever the arguments, a value the solver returns is either a
    volatility of the grid 0.001, ..., 0.999 or the not-found message of
    its branch: it never returns a volatility of 1 or more, nor one off
    the grid. *)
Theorem X9_solver_result_range
    (fuel : nat) (g : Globals) (P S K T r : R) (v : PyVal) :
  implied_volatility fuel g P S K T r = Some (Ok v) ->
  (exists k, (1 <= k <= 999)%nat /\ v = PyFloat (grid k)) \/
  v = PyStr (not_found g).
Proof.
  rewrite implied_volatility_branch. intros Hres.
  destruct v as [sigma | m].
  - left. destruct (scan_float_inv _ _ _ _ _ _ Hres) as [j [w [Hs [Hlt _]]]].
    exists (Datatypes.S j). rewrite Hs in Hlt.
    split; [now apply grid_index_bound | ].
    now rewrite Hs, grid_from_first.
  - right. f_equal. now apply (scan_str_inv _ _ _ _ _ _ Hres).
Qed.

Lemma X9_solver_result_range_witness :
  (exists k, (1 <= k <= 999)%nat /\ PyFloat (grid 1) = PyFloat (grid k)) \/
  PyFloat (grid 1) = PyStr (not_found (notebook_globals "C")).
Proof.
  apply (X9_solver_result_range 1000 (notebook_globals "C") 0.4 2 1 2 0).
  now apply call_run_first_step.
Defined.

(** X10.  With a maturity that is not positive the solver fails at its
    first model price, whatever the observed price and the branch: for
    S > 0 it raises [ZeroDivisionError] when T = 0 and [ValueError] when
    T < 0. *)
Theorem X10_solver_exceptions
    (fuel : nat) (g : Globals) (P S K T r : R) :
  0 < S -> (1 <= fuel)%nat ->
  (T = 0 ->
     implied_volatility fuel g P S K T r = Some (Raise ZeroDivisionError)) /\
  (T < 0 ->
     implied_volatility fuel g P S K T r = Some (Raise ValueError)).
Proof.
  intros HS Hfuel. destruct fuel as [ | fuel]; [lia | ].
  rewrite implied_volatility_branch, scan_unfold.
  destruct (Rlt_dec 0.001 1); [ | lra ].
  unfold branch_model.
  split.
  - intros ->. destruct (is_call g);
      unfold call_model, put_model, call_price;
      now rewrite d1_maturity_zero.
  - intros HT. destruct (is_call g);
      unfold call_model, put_model, call_price;
      now rewrite d1_log_raises by nra.
Qed.

Lemma X10_solver_exceptions_witness :
  implied_volatility 1000 (notebook_globals "P") 8 100 100 0 0.2
  = Some (Raise ZeroDivisionError).
Proof.
  assert (H100 : 0 < 100) by lra.
  assert (Hfuel : (1 <= 1000)%nat) by lia.
  exact (proj1 (X10_solver_exceptions 1000 (notebook_globals "P")
                  8 100 100 0 0.2 H100 Hfuel) eq_refl).
Defined.

(** X11.  A lower observed price never gives a higher implied
    volatility: for S, K, T > 0, if the solver returns sigma2 for the
    price P2 and P1 <= P2, then for P1 it returns a volatility
    sigma1 <= sigma2 (and not the message). *)
Theorem X11_solver_monotone_in_price
    (fuel : nat) (g : Globals) (P1 P2 S K T r sigma2 : R) :
  0 < S -> 0 < K -> 0 < T -> (1000 <= fuel)%nat -> P1 <= P2 ->
  implied_volatility fuel g P2 S K T r = Some (Ok (PyFloat sigma2)) ->
  exists sigma1,
    implied_volatility fuel g P1 S K T r = Some (Ok (PyFloat sigma1)) /\
    sigma1 <= sigma2.
Proof.
  intros HS HK HT Hfuel HP. rewrite !implied_volatility_branch. intros Hres.
  assert (Hok : forall sigma, 0 < sigma ->
            branch_model g S K T r sigma
            = Ok (Option_Price_implied g S K T r sigma))
    by (intros; now apply branch_model_ok).
  destruct (scan_float_inv _ _ _ _ _ _ Hres) as [j [v [Hs [Hlt [Hm Hhit]]]]].
  assert (Hj : 0 <= INR j) by apply pos_INR.
  rewrite Hok in Hm by lra. injection Hm as <-.
  rewrite Hs in Hlt.
  destruct (grid_index_bound j Hlt) as [_ Hj999].
  destruct (scan_first_hit _ _ (not_found g) P1 Hok j fuel 0.001)
    as [i [Hi [Hscan _]]].
  - lia.
  - lra.
  - exact Hlt.
  - unfold hit. rewrite <- Hs. lra.
  - exists (0.001 + INR i * 0.001). split; [exact Hscan | ].
    apply le_INR in Hi. rewrite Hs. lra.
Qed.

Lemma X11_solver_monotone_in_price_witness :
  exists sigma1,
    implied_volatility 1000 (notebook_globals "C") 0.3 2 1 2 0
    = Some (Ok (PyFloat sigma1)) /\
    sigma1 <= grid 1.
Proof.
  apply (X11_solver_monotone_in_price
           1000 (notebook_globals "C") 0.3 0.4 2 1 2 0 (grid 1));
    try lra; try lia.
  now apply call_run_first_step.
Defined.

(** Shifting the model price by a constant is shifting the observed
    price the other way. *)
Lemma scan_shift (m1 m2 : R -> py R) (msg1 msg2 : string) (a P : R) :
  (forall sigma, m2 sigma = (c <- m1 sigma ;; Ok (a + c))) ->
  forall (fuel : nat) (sigma0 : R),
    scan fuel m2 msg2 P sigma0
    = with_message msg2 (scan fuel m1 msg1 (P - a) sigma0).
Proof.
  intros Hm. induction fuel as [ | fuel IH]; intros sigma0.
  - reflexivity.
  - rewrite !scan_unfold, Hm.
    destruct (Rlt_dec sigma0 1); [ | reflexivity ].
    destruct (m1 sigma0) as [c | e]; cbn [bind]; [ | reflexivity ].
    replace (P - a - c) with (P - (a + c)) by ring.
    destruct (Rlt_dec (P - (a + c)) 0.001); [reflexivity | apply IH].
Qed.

(** X12.  The put branch is the call branch on a shifted price: whatever
    the arguments, the solver under a global [option] other than ['C']
    returns for the price P what it returns under ['C'] for the price
    P - (K*exp(-r*T) - S), with the put message in place of the call
    message. *)
Theorem X12_put_branch_is_shifted_call_branch
    (fuel : nat) (gC gP : Globals) (P S K T r : R) :
  is_call gC = true -> is_call gP = false ->
  implied_volatility fuel gP P S K T r
  = with_message msg_put
      (implied_volatility fuel gC (P - (K * exp (- r * T) - S)) S K T r).
Proof.
  intros HC HP. rewrite !implied_volatility_branch.
  unfold branch_model, not_found. rewrite HC, HP.
  apply scan_shift. intros sigma. reflexivity.
Qed.

Lemma X12_put_branch_is_shifted_call_branch_witness :
  implied_volatility 1000 (notebook_globals "P") 8 100 100 0.5 0.2
  = with_message msg_put
      (implied_volatility 1000 (notebook_globals "C")
         (8 - (100 * exp (- (0.2) * 0.5) - 100)) 100 100 0.5 0.2).
Proof.
  apply (X12_put_branch_is_shifted_call_branch
           1000 (notebook_globals "C") (notebook_globals "P") 8 100 100 0.5 0.2);
    reflexivity.
Defined.

Lemma string_length_append (s t : string) :
  String.length (s ++ t) = (String.length s + String.length t)%nat.
Proof. induction s as [ | c s IH]; simpl; [reflexivity | now rewrite IH]. Qed.

Lemma str_repeat_length (n : nat) (s : string) :
  String.length (str_repeat n s) = (n * String.length s)%nat.
Proof.
  induction n as [ | n IH]; simpl; [reflexivity | ].
  now rewrite string_length_append, IH.
Qed.

(** X13.  The demo cell multiplies what the solver returns by 100.  A
    value it obtains is either a percentage between 0.1 and 99.9, or,
    when no volatility was found, not a number but the message of the
    branch repeated 100 times. *)
Theorem X13_reported_volatility (fuel : nat) (g : Globals) (v : PyVal) :
  reported_volatility fuel g = Some (Ok v) ->
  (exists p, v = PyFloat p /\ 0.1 <= p <= 99.9) \/
  (exists s,
     v = PyStr s /\ s = str_repeat 100 (not_found g) /\
     String.length s = (100 * String.length (not_found g))%nat).
Proof.
  unfold reported_volatility.
  destruct (implied_volatility fuel g (g_Price g) (g_S g) (g_K g) (g_T g)
              (g_r g)) as [[w | e] | ] eqn:Hres; try discriminate.
  intros Hv. injection Hv as <-.
  rewrite implied_volatility_branch in Hres.
  destruct w as [sigma | m]; cbn [times_100].
  - left. destruct (scan_float_inv _ _ _ _ _ _ Hres) as [j [w [Hs [Hlt _]]]].
    exists (100 * sigma). split; [reflexivity | ].
    assert (Hj : 0 <= INR j) by apply pos_INR.
    rewrite Hs in Hlt.
    destruct (grid_index_bound j Hlt) as [_ Hj999].
    assert (Hle : grid (Datatypes.S j) <= grid 999) by (apply grid_le; lia).
    rewrite <- grid_from_first, (grid_value 999), <- Hs in Hle.
    simpl in Hle. lra.
  - right. rewrite (scan_str_inv _ _ _ _ _ _ Hres).
    eexists. split; [reflexivity | ]. split; [reflexivity | ].
    apply str_repeat_length.
Qed.

Lemma X13_reported_volatility_witness :
  (exists p, PyFloat (100 * grid 1) = PyFloat p /\ 0.1 <= p <= 99.9) \/
  (exists s,
     PyFloat (100 * grid 1) = PyStr s /\
     s = str_repeat 100 (not_found (mkGlobals 2 1 2 0 0.2 "C" 0.4)) /\
     String.length s
     = (100 * String.length (not_found (mkGlobals 2 1 2 0 0.2 "C" 0.4)))%nat).
Proof.
  apply (X13_reported_volatility 1000 (mkGlobals 2 1 2 0 0.2 "C" 0.4)).
  unfold reported_volatility. cbn [g_Price g_S g_K g_T g_r].
  now rewrite call_run_first_step.
Defined.

(** ** The maturity computed from the expiration date *)

Lemma time_to_maturity_past (expiration_date utcnow : Z) :
  (expiration_date < utcnow)%Z ->
  time_to_maturity expiration_date utcnow < 0.
Proof.
  intros Hlt. unfold time_to_maturity, timedelta_days, microseconds_per_day.
  assert (Hd : ((expiration_date - utcnow) / 86400000000 < 0)%Z)
    by (apply Z.div_lt_upper_bound; lia).
  apply IZR_lt in Hd. lra.
Qed.

Lemma time_to_maturity_same_day (expiration_date utcnow : Z) :
  (utcnow <= expiration_date < utcnow + microseconds_per_day)%Z ->
  time_to_maturity expiration_date utcnow = 0.
Proof.
  intros Hin. unfold time_to_maturity, timedelta_days.
  rewrite Z.div_small by lia. lra.
Qed.

Lemma time_to_maturity_later (expiration_date utcnow : Z) :
  (utcnow + microseconds_per_day <= expiration_date)%Z ->
  1 / 365 <= time_to_maturity expiration_date utcnow.
Proof.
  intros Hge. unfold time_to_maturity, timedelta_days.
  unfold microseconds_per_day in *.
  assert (Hd : (1 <= (expiration_date - utcnow) / 86400000000)%Z)
    by (apply Z.div_le_lower_bound; lia).
  apply IZR_le in Hd. lra.
Qed.

(** X14.  The maturity T = (expiration_date - utcnow).days / 365 counts
    whole days only.  For S, K > 0: with an expiration less than one day
    ahead T is 0 and [call_price] raises [ZeroDivisionError]; with an
    expiration in the past T is negative and it raises [ValueError];
    from one day ahead on T is at least 1/365 and, for sigma <> 0, a
    price is returned. *)
Theorem X14_maturity_from_dates
    (S K r sigma : R) (expiration_date utcnow : Z) :
  0 < S -> 0 < K ->
  ((utcnow <= expiration_date < utcnow + microseconds_per_day)%Z ->
     time_to_maturity expiration_date utcnow = 0 /\
     call_price S K (time_to_maturity expiration_date utcnow) r sigma
     = Raise ZeroDivisionError) /\
  ((expiration_date < utcnow)%Z ->
     time_to_maturity expiration_date utcnow < 0 /\
     call_price S K (time_to_maturity expiration_date utcnow) r sigma
     = Raise ValueError) /\
  ((utcnow + microseconds_per_day <= expiration_date)%Z -> sigma <> 0 ->
     1 / 365 <= time_to_maturity expiration_date utcnow /\
     exists c,
       call_price S K (time_to_maturity expiration_date utcnow) r sigma
       = Ok c).
Proof.
  intros HS HK. split; [ | split ].
  - intros Hin. rewrite time_to_maturity_same_day by assumption.
    split; [reflexivity | ].
    unfold call_price. now rewrite d1_maturity_zero.
  - intros Hpast.
    assert (HT := time_to_maturity_past _ _ Hpast).
    split; [exact HT | ].
    unfold call_price. now rewrite d1_log_raises by nra.
  - intros Hlater Hs.
    assert (HT := time_to_maturity_later _ _ Hlater).
    split; [exact HT | ].
    eexists. apply call_price_ok; lra.
Qed.

Lemma X14_maturity_from_dates_witness :
  time_to_maturity 86400000000 43200000000 = 0 /\
  call_price 100 100 (time_to_maturity 86400000000 43200000000) 0.05 0.2
  = Raise ZeroDivisionError.
Proof.
  assert (H100 : 0 < 100) by lra.
  apply (proj1 (X14_maturity_from_dates 100 100 0.05 0.2
                  86400000000 43200000000 H100 H100)).
  unfold microseconds_per_day. lia.
Defined.

(** ** Reading the volatility *)

(** On the answers that parse to finite numbers [read_volatility] is
    [read_sigma]. *)
Lemma read_volatility_finite (float : string -> option R)
    (inputs : list string) :
  forall sigma,
    read_volatility (fun s => option_map Finite (float s)) sigma inputs
    = option_map sigma_val (read_sigma float sigma inputs).
Proof.
  induction inputs as [ | again inputs IH]; intros sigma;
    cbn [read_volatility read_sigma];
    destruct (float sigma) as [x | ]; cbn [option_map gt_100 lt_0];
    try reflexivity;
    try (destruct (Rlt_dec 100 x); [reflexivity | ];
         destruct (Rlt_dec x 0); reflexivity).
  apply IH.
Qed.

(** X15.  What the reading loop leaves in [sigma] is a finite float
    between 0 and 100 that one of the answers parses to, or nan when an
    answer parses to nan, or the raw text of an answer given after the
    first prompt, kept as a string. *)
Theorem X15_read_volatility_result
    (float : string -> option PyFloatVal) (inputs : list string) :
  forall (sigma : string) (v : SigmaVal),
    read_volatility float sigma inputs = Some v ->
    (exists x s,
       v = SigmaFloat (Finite x) /\ 0 <= x <= 100 /\
       In s (sigma :: inputs) /\ float s = Some (Finite x)) \/
    (exists s,
       v = SigmaFloat NaN /\ In s (sigma :: inputs) /\ float s = Some NaN) \/
    (exists s, v = SigmaStr s /\ In s inputs).
Proof.
  assert (Hkept : forall f sigma (rest : list string) v,
            float sigma = Some f -> orb (gt_100 f) (lt_0 f) = false ->
            v = SigmaFloat f ->
            (exists x s,
               v = SigmaFloat (Finite x) /\ 0 <= x <= 100 /\
               In s (sigma :: rest) /\ float s = Some (Finite x)) \/
            (exists s,
               v = SigmaFloat NaN /\ In s (sigma :: rest) /\
               float s = Some NaN) \/
            (exists s, v = SigmaStr s /\ In s rest)).
  { intros f sigma rest v Hf Hin ->.
    destruct f as [x | positive | ].
    - left. exists x, sigma. cbn [gt_100 lt_0] in Hin.
      destruct (Rlt_dec 100 x); [discriminate | ].
      destruct (Rlt_dec x 0); [discriminate | ].
      repeat split; auto; try lra. now left.
    - cbn [gt_100 lt_0] in Hin. now destruct positive.
    - right. left. exists sigma. repeat split; auto. now left. }
  induction inputs as [ | again inputs IH]; intros sigma v Hres;
    cbn [read_volatility] in Hres;
    destruct (float sigma) as [f | ] eqn:Hf.
  - destruct (orb (gt_100 f) (lt_0 f)) eqn:Hout; [discriminate | ].
    injection Hres as <-. now apply (Hkept f).
  - discriminate.
  - destruct (orb (gt_100 f) (lt_0 f)) eqn:Hout.
    + injection Hres as <-. right. right. exists again.
      split; auto. now left.
    + injection Hres as <-. now apply (Hkept f).
  - destruct (IH _ _ Hres)
      as [[x [s [Hv [Hx [Hin Hs]]]]] | [[s [Hv [Hin Hs]]] | [s [Hv Hin]]]].
    + left. exists x, s. repeat split; auto; try lra. now right.
    + right. left. exists s. repeat split; auto. now right.
    + right. right. exists s. split; auto. now right.
Qed.

Lemma X15_read_volatility_result_witness :
  (exists x s,
     SigmaFloat NaN = SigmaFloat (Finite x) /\ 0 <= x <= 100 /\
     In s ["abc"; "nan"; "20"]%string /\ demo_float_nan s = Some (Finite x)) \/
  (exists s,
     SigmaFloat NaN = SigmaFloat NaN /\ In s ["abc"; "nan"; "20"]%string /\
     demo_float_nan s = Some NaN) \/
  (exists s, SigmaFloat NaN = SigmaStr s /\ In s ["nan"; "20"]%string).
Proof.
  apply (X15_read_volatility_result demo_float_nan ["nan"; "20"]%string
           "abc"%string).
  reflexivity.
Defined.

(** X16.  The range check is applied once.  After any number of answers
    that do not parse, an answer that parses to a number outside
    [0, 100] makes the loop take the next answer as it is, whatever it
    holds, and leave with that string. *)
Theorem X16_read_sigma_skips_second_check
    (float : string -> option R) (bad : list string)
    (y again : string) (rest : list string) (x : R) :
  Forall (fun s => float s = None) bad ->
  float y = Some x -> x < 0 \/ 100 < x ->
  read_sigma_cell float (bad ++ y :: again :: rest) = Some (PyStr again).
Proof.
  intros Hbad Hy Hx.
  assert (Hloop : read_sigma float y (again :: rest) = Some (PyStr again)).
  { cbn [read_sigma]. rewrite Hy.
    destruct (Rlt_dec 100 x); [reflexivity | ].
    destruct (Rlt_dec x 0); [reflexivity | lra]. }
  destruct Hbad as [ | first bad Hfirst Hbad]; [exact Hloop | ].
  cbn [read_sigma_cell app].
  revert first Hfirst.
  induction Hbad as [ | next bad Hnext Hbad IH]; intros first Hfirst.
  - cbn [app read_sigma]. now rewrite Hfirst.
  - cbn [app read_sigma]. rewrite Hfirst. fold (read_sigma float).
    now apply IH.
Qed.

Lemma X16_read_sigma_skips_second_check_witness :
  read_sigma_cell demo_float
    (["abc"%string] ++ "150"%string :: "abc"%string :: ["20"%string])
  = Some (PyStr "abc").
Proof.
  apply (X16_read_sigma_skips_second_check demo_float ["abc"%string]
           "150"%string "abc"%string ["20"%string] 150).
  - repeat constructor.
  - reflexivity.
  - right. lra.
Defined.
